(** * get_landsat.py: the time-series assembly pipeline

    A shallow embedding of [get_time_series] (src/get_landsat.py, lines
    51-100) and of the Python library calls it makes, followed by the
    properties of the pipeline.

    The program is a sequence of calls on files. The embedding threads
    the local storage through every call, records each call with its
    arguments in a trace, and stops at the first exception, keeping what
    was written before.

    The modules [search_landsat], [download_landsat], [registration],
    [midway] and [utils.crop_georeferenced_image] are collaborators of
    which only the call sites are in the source: they are the fields of a
    record, arbitrary functions on the storage that may raise. They act on
    files; they are taken not to mutate the Python lists handed to them
    ([bands], [crops]).

    Widths and heights are Python integers (the command line parses the
    size with [type=int]), so [Z]; latitude, longitude, dates and scenes
    are only passed on, and stay abstract. *)

From Stdlib Require Import ZArith String Ascii List Lia DecimalString.
From stdpp Require Import gmap strings list fin_maps.

Local Open Scope Z_scope.

(** ** POSIX paths: [os.path.join] and [os.path.basename] *)

Module PosixPath.

Definition is_sep (c : ascii) : bool := bool_decide (c = "/"%char).

Fixpoint has_sep (p : string) : bool :=
  match p with
  | EmptyString => false
  | String c r => is_sep c || has_sep r
  end.

(** [p[p.rfind('/') + 1:]]: what follows the last separator. *)
Fixpoint basename (p : string) : string :=
  match p with
  | EmptyString => EmptyString
  | String c r =>
      if has_sep r then basename r
      else if is_sep c then r else String c r
  end.

Definition startswith_sep (p : string) : bool :=
  match p with
  | EmptyString => false
  | String c _ => is_sep c
  end.

Fixpoint endswith_sep (p : string) : bool :=
  match p with
  | EmptyString => false
  | String c EmptyString => is_sep c
  | String _ r => endswith_sep r
  end.

(** [posixpath.join(a, b)] with one component [b]. *)
Definition join (a b : string) : string :=
  if startswith_sep b then b
  else if bool_decide (a = "") || endswith_sep a then a +:+ b
  else a +:+ "/" +:+ b.

End PosixPath.

Import PosixPath.

(** ** Storage *)

(** The content of a georeferenced raster file: its samples, flattened,
    and the ground footprint it covers (meters). Two files hold the same
    bytes when their contents are equal. *)
Record Artifact := mkArtifact {
  raster : list Z;
  width : Z;
  height : Z
}.

(** The local file system: regular files by path and the set of
    directories. Paths are compared as strings (no normalisation, no
    links). *)
Record Storage := mkStorage {
  files : gmap string Artifact;
  dirs : gset string
}.

Inductive exn :=
| IOError (path : string)
| OSError (path : string)
| ShutilSameFile (src dst : string)
| CollaboratorError (what : string).

Inductive outcome (A : Type) :=
| Returned (a : A)
| Raised (e : exn).
Arguments Returned {A} a.
Arguments Raised {A} e.

(** ** Python library calls on the storage *)

Module Py.

(** [tifffile.imread(x)]: the samples of the file, [IOError] when there
    is no such file. *)
Definition imread (x : string) (d : Storage) : outcome (list Z) * Storage :=
  match files d !! x with
  | Some a => (Returned (raster a), d)
  | None => (Raised (IOError x), d)
  end.

(** [ndarray.any()]: some sample is not zero. *)
Definition any (a : list Z) : bool := existsb (fun v => negb (Z.eqb v 0)) a.

(** [os.remove(x)]: [OSError] when there is no such file. *)
Definition remove (x : string) (d : Storage) : outcome unit * Storage :=
  match files d !! x with
  | Some _ => (Returned tt, mkStorage (delete x (files d)) (dirs d))
  | None => (Raised (OSError x), d)
  end.

(** [shutil.copy(src, dst)]: into [dst] under the name of [src] when
    [dst] is a directory, onto [dst] otherwise; the source must exist and
    must not be the target. *)
Definition copy_target (src dst : string) (d : Storage) : string :=
  if bool_decide (dst ∈ dirs d) then join dst (basename src) else dst.

Definition copy (src dst : string) (d : Storage) : outcome unit * Storage :=
  match files d !! src with
  | None => (Raised (IOError src), d)
  | Some a =>
      if bool_decide (copy_target src dst d = src)
      then (Raised (ShutilSameFile src dst), d)
      else (Returned tt,
            mkStorage (<[copy_target src dst d := a]> (files d)) (dirs d))
  end.

End Py.

(** Modelled from the spec: [utils.mkdir_p], which is not in the source.
    "Each checkpoint directory is created on demand (idempotent create)":
    the directory exists afterwards, and creating it again changes
    nothing. *)
Definition mkdir_p (p : string) (d : Storage) : outcome unit * Storage :=
  (Returned tt, mkStorage (files d) ({[p]} ∪ dirs d)).

(** ** Runs: result, final storage and trace of calls *)

Section Pipeline.

Context {Coord Date Scene : Type}.

(** The calls the pipeline makes, with their arguments. *)
Inductive Call :=
| ListImages (lat lon : Coord) (start_date end_date : option Date)
| GetCrops (img : Scene) (bands : list string) (lon lat : Coord)
           (w h : Z) (out_dir : string)
| Imread (x : string)
| Remove (x : string)
| MkdirP (p : string)
| CropGeoreferenced (o b : string) (lon lat : Coord) (w h : Z)
| RegistrationMain (a b : list (list string)) (all_pairwise : bool)
| ShutilCopy (src dst : string)
| MidwayMain (group : list string) (out_dir : string).

Record Run (A : Type) := mkRun {
  result : outcome A;
  final : Storage;
  trace : list Call
}.
Arguments mkRun {A} _ _ _.
Arguments result {A} _.
Arguments final {A} _.
Arguments trace {A} _.

Definition M (A : Type) : Type := Storage -> Run A.

Definition ret {A} (a : A) : M A := fun d => mkRun (Returned a) d [].

(** An exception ends the run where it is raised; what was written
    before stays. *)
Definition bind {A B} (m : M A) (k : A -> M B) : M B :=
  fun d =>
    let r := m d in
    match result r with
    | Returned a =>
        let r' := k a (final r) in
        mkRun (result r') (final r') (trace r ++ trace r')
    | Raised e => mkRun (Raised e) (final r) (trace r)
    end.

(** One call: recorded, then run on the storage. *)
Definition invoke {A} (c : Call) (f : Storage -> outcome A * Storage)
  : M A :=
  fun d => mkRun (f d).1 (f d).2 [c].

Notation "x <- m ;; k" := (bind m (fun x => k))
  (at level 100, m at next level, right associativity).
Notation "m ;;; k" := (bind m (fun _ => k))
  (at level 100, right associativity).

(** [for x in l: body]. *)
Fixpoint for_each {A} (l : list A) (body : A -> M unit) : M unit :=
  match l with
  | [] => ret tt
  | x :: l' => body x ;;; for_each l' body
  end.

(** ** The collaborators *)

Record Collaborators := mkCollaborators {
  list_images :
    Coord -> Coord -> option Date -> option Date ->
    Storage -> outcome (list Scene) * Storage;
  get_crops_from_kayrros_api :
    Scene -> list string -> Coord -> Coord -> Z -> Z -> string ->
    Storage -> outcome (list string) * Storage;
  registration_main :
    list (list string) -> list (list string) -> bool ->
    Storage -> outcome unit * Storage;
  midway_main :
    list string -> string -> Storage -> outcome unit * Storage;
  crop_georeferenced_image :
    string -> string -> Coord -> Coord -> Z -> Z ->
    Storage -> outcome unit * Storage
}.

Variable C : Collaborators.

(** ** get_time_series *)

(** [all(tifffile.imread(x).any() for x in l)], stopping at the first
    file without a non-zero sample. *)
Fixpoint all_any (l : list string) : M bool :=
  match l with
  | [] => ret true
  | x :: l' =>
      a <- invoke (Imread x) (Py.imread x) ;;
      if Py.any a then all_any l' else ret false
  end.

(** Lines 66-73, the body of the loop over the images; [crops] is the
    list built so far and the result is the list afterwards. *)
Definition download (img : Scene) (bands : list string) (lon lat : Coord)
    (w h : Z) (out_dir : string) (crops : list (list string))
  : M (list (list string)) :=
  l <- invoke (GetCrops img bands lon lat w h out_dir)
         (get_crops_from_kayrros_api C img bands lon lat w h out_dir) ;;
  match l with
  | [] => ret crops
  | _ :: _ =>
      ok <- all_any l ;;
      if ok : bool then ret (crops ++ [l])
      else for_each l (fun x => invoke (Remove x) (Py.remove x)) ;;;
           ret crops
  end.

(** Lines 64-73. *)
Fixpoint download_all (images : list Scene) (bands : list string)
    (lon lat : Coord) (w h : Z) (out_dir : string)
    (crops : list (list string)) : M (list (list string)) :=
  match images with
  | [] => ret crops
  | img :: rest =>
      crops' <- download img bands lon lat w h out_dir crops ;;
      download_all rest bands lon lat w h out_dir crops'
  end.

(** Lines 59-61. *)
Definition working_size (register : bool) (w : Z) : Z :=
  if register then w + 100 else w.

(** Lines 80-83 and 87-89: one call per artifact of each crop set. *)
Definition for_each_artifact (crops : list (list string))
    (body : string -> M unit) : M unit :=
  for_each crops (fun crop => for_each crop body).

(** Lines 78-83, the body of [if debug:] before registration. *)
Definition snapshot_before_registration (lon lat : Coord) (w h : Z)
    (out_dir : string) (crops : list (list string)) : M unit :=
  let bak := join out_dir "no_registration" in
  invoke (MkdirP bak) (mkdir_p bak) ;;;
  for_each_artifact crops (fun b =>
    let o := join bak (basename b) in
    invoke (CropGeoreferenced o b lon lat (w - 100) (h - 100))
      (crop_georeferenced_image C o b lon lat (w - 100) (h - 100))).

(** Lines 77-89, the body of [if register:]; [w] and [h] are the working
    sizes. *)
Definition register_images (lon lat : Coord) (w h : Z) (out_dir : string)
    (debug : bool) (crops : list (list string)) : M unit :=
  (if debug then snapshot_before_registration lon lat w h out_dir crops
   else ret tt) ;;;
  invoke (RegistrationMain crops crops true)
    (registration_main C crops crops true) ;;;
  for_each_artifact crops (fun b =>
    invoke (CropGeoreferenced b b lon lat (w - 100) (h - 100))
      (crop_georeferenced_image C b b lon lat (w - 100) (h - 100))).

(** [[crop[i] for crop in crops if len(crop) > i]]. The index is in
    range whenever the guard holds. *)
Fixpoint band_group (crops : list (list string)) (i : nat) : list string :=
  match crops with
  | [] => []
  | crop :: rest =>
      if bool_decide (i < length crop)%nat
      then match crop !! i with
           | Some x => x :: band_group rest i
           | None => band_group rest i
           end
      else band_group rest i
  end.

(** Lines 94-97, the body of [if debug:] before equalization. *)
Definition snapshot_before_equalization (out_dir : string)
    (crops : list (list string)) : M unit :=
  invoke (MkdirP (join out_dir "no_midway"))
    (mkdir_p (join out_dir "no_midway")) ;;;
  for_each_artifact crops (fun b =>
    invoke (ShutilCopy b (join out_dir "no_midway"))
      (Py.copy b (join out_dir "no_midway"))).

(** Lines 93-100, the body of [if equalize:]. *)
Definition equalize_images (bands : list string) (out_dir : string)
    (debug : bool) (crops : list (list string)) : M unit :=
  (if debug then snapshot_before_equalization out_dir crops
   else ret tt) ;;;
  for_each (seq 0 (length bands)) (fun i =>
    invoke (MidwayMain (band_group crops i) out_dir)
      (midway_main C (band_group crops i) out_dir)).

(** Lines 57-73: discovery, working size, acquisition and filtering.
    The result is the local [crops], the time series. *)
Definition collect (lat lon : Coord) (bands : list string) (w h : Z)
    (register : bool) (out_dir : string)
    (start_date end_date : option Date) : M (list (list string)) :=
  images <- invoke (ListImages lat lon start_date end_date)
              (list_images C lat lon start_date end_date) ;;
  download_all images bands lon lat
    (working_size register w) (working_size register h) out_dir [].

(** Lines 51-100. *)
Definition get_time_series (lat lon : Coord) (bands : list string)
    (w h : Z) (register equalize : bool) (out_dir : string)
    (start_date end_date : option Date) (debug : bool) : M unit :=
  crops <- collect lat lon bands w h register out_dir
             start_date end_date ;;
  (if register then
     register_images lon lat
       (working_size register w) (working_size register h)
       out_dir debug crops
   else ret tt) ;;;
  (if equalize then equalize_images bands out_dir debug crops
   else ret tt).

End Pipeline.

Arguments mkRun {Coord Date Scene A} _ _ _.
Arguments result {Coord Date Scene A} _.
Arguments final {Coord Date Scene A} _.
Arguments trace {Coord Date Scene A} _.

Notation "x <- m ;; k" := (bind m (fun x => k))
  (at level 100, m at next level, right associativity).
Notation "m ;;; k" := (bind m (fun _ => k))
  (at level 100, right associativity).

(** ** Properties of runs: the vocabulary of the theorems *)

Section Properties.

Context {Coord Date Scene : Type}.
Variable C : @Collaborators Coord Date Scene.
Variable out_dir : string.

Abbreviation Call := (@Call Coord Date Scene).
Abbreviation M := (@M Coord Date Scene).
Abbreviation Run := (@Run Coord Date Scene).

(** [emits_only P m]: whatever the storage and however the run ends,
    every call [m] makes satisfies [P]. *)
Definition emits_only {A} (P : Call -> Prop) (m : M A) : Prop :=
  forall d, Forall P (trace (m d)).

(** What a call may carry as a footprint when the target size is
    [w] x [h]: an acquisition asks for the working size, and the only
    calls that rewrite a raster at a given size, those of
    [crop_georeferenced_image], exist only under [register] and ask for
    the target size. *)
Definition footprint_ok (register : bool) (w h : Z)
    (c : Call) : Prop :=
  match c with
  | GetCrops _ _ _ _ w' h' _ =>
      w' = (if register then w + 100 else w) /\
      h' = (if register then h + 100 else h)
  | CropGeoreferenced _ _ _ _ w' h' =>
      register = true /\ w' = w /\ h' = h
  | _ => True
  end.

(** The calls of the registration stage on the time series [crops], for
    the target size [w] x [h]. *)
Definition snapshot_trims (lon lat : Coord) (w h : Z) (out_dir : string)
    (crops : list (list string)) : list Call :=
  map (fun b =>
         CropGeoreferenced (join (join out_dir "no_registration")
                              (basename b)) b lon lat w h)
      (concat crops).

Definition margin_trims (lon lat : Coord) (w h : Z)
    (crops : list (list string)) : list Call :=
  map (fun b => CropGeoreferenced b b lon lat w h) (concat crops).

Definition registration_calls (lon lat : Coord) (w h : Z)
    (out_dir : string) (debug : bool) (crops : list (list string))
  : list Call :=
  (if debug
   then MkdirP (join out_dir "no_registration")
        :: snapshot_trims lon lat w h out_dir crops
   else [])
  ++ RegistrationMain crops crops true :: margin_trims lon lat w h crops.

(** The calls of the equalization stage. *)
Definition midway_calls (bands : list string) (out_dir : string)
    (crops : list (list string)) : list Call :=
  map (fun i => MidwayMain (band_group crops i) out_dir)
      (seq 0 (length bands)).

Definition equalization_calls (bands : list string) (out_dir : string)
    (debug : bool) (crops : list (list string)) : list Call :=
  (if debug
   then MkdirP (join out_dir "no_midway")
        :: map (fun b => ShutilCopy b (join out_dir "no_midway"))
             (concat crops)
   else [])
  ++ midway_calls bands out_dir crops.

(** Discovery, acquisition and the validity filter. *)
Definition is_collecting (c : Call) : bool :=
  match c with
  | ListImages _ _ _ _ | GetCrops _ _ _ _ _ _ _ | Imread _ | Remove _ => true
  | _ => false
  end.

Definition is_acquisition (c : Call) : bool :=
  match c with GetCrops _ _ _ _ _ _ _ => true | _ => false end.

Definition is_registration (c : Call) : bool :=
  match c with RegistrationMain _ _ _ => true | _ => false end.

Definition is_trim (c : Call) : bool :=
  match c with CropGeoreferenced _ _ _ _ _ _ => true | _ => false end.

Definition is_midway (c : Call) : bool :=
  match c with MidwayMain _ _ => true | _ => false end.

(** A call that makes a snapshot: a directory created, a file copied, or
    a raster trimmed into another file than its source. *)
Definition is_snapshot (c : Call) : bool :=
  match c with
  | MkdirP _ | ShutilCopy _ _ => true
  | CropGeoreferenced o b _ _ _ _ => negb (String.eqb o b)
  | _ => false
  end.

(** The group of band index [i] in the words of the specification: the
    artifact at position [i] of each crop set that has more than [i]
    entries, in the order of the time series. *)
Definition artifacts_at (crops : list (list string)) (i : nat)
  : list string :=
  omap (fun crop : list string => crop !! i)
       (filter (fun crop : list string => (i < length crop)%nat) crops).

(** The claim that a trace has no trim before a registration call. *)
Definition registration_before_any_trim (tr : list Call) : Prop :=
  forall pre a b p post,
    tr = pre ++ RegistrationMain a b p :: post ->
    Forall (fun c => is_trim c = false) pre.

(** A call that acquires, reads, removes, trims or copies an artifact. *)
Definition touches_artifact (c : Call) : bool :=
  match c with
  | GetCrops _ _ _ _ _ _ _ | Imread _ | Remove _
  | CropGeoreferenced _ _ _ _ _ _ | ShutilCopy _ _ => true
  | _ => false
  end.

(** The claim that a trace has no call of the acquisition, registration
    or equalization collaborators. *)
Definition no_collaborator_call (tr : list Call) : Prop :=
  Forall (fun c => is_acquisition c = false /\ is_registration c = false /\
                   is_midway c = false) tr.

(** What follows the collection of an empty time series. *)
Definition after_empty (lon lat : Coord) (bands : list string) (w h : Z)
    (register equalize : bool) (out_dir : string) (debug : bool)
  : M unit :=
  (if register then register_images C lon lat w h out_dir debug []
   else ret tt) ;;;
  (if equalize then equalize_images C bands out_dir debug []
   else ret tt).

Definition is_copy (c : Call) : bool :=
  match c with
  | ShutilCopy _ _ | CropGeoreferenced _ _ _ _ _ _ => true
  | _ => false
  end.

(** In the words of the specification: the raster contains at least one
    non-zero sample, and every artifact of the list is such a raster. *)
Definition has_nonzero_sample (a : Artifact) : Prop :=
  exists v, v ∈ raster a /\ v <> 0.

Definition all_nonzero (d : Storage) (l : list string) : Prop :=
  forall x, x ∈ l ->
    exists a, files d !! x = Some a /\ has_nonzero_sample a.

(** What the code computes on the files of [l]. *)
Definition passes (d : Storage) (l : list string) : bool :=
  forallb (fun x => match files d !! x with
                    | Some a => Py.any (raster a)
                    | None => false
                    end) l.

(** The directory [dir] of [after] holds, under its file name, the
    content each file of [l] has in [before]. *)
Definition holds_copies (dir : string) (l : list string)
    (before after : Storage) : Prop :=
  forall b, b ∈ l ->
    is_Some (files before !! b) /\
    files after !! join dir (basename b) = files before !! b.

(** The paths the snapshots are written to. *)
Definition in_snapshot (p : string) : Prop :=
  exists b, p = join (join out_dir "no_registration") (basename b) \/
            p = join (join out_dir "no_midway") (basename b).

Definition outside (l : list string) : Prop :=
  Forall (fun b => ~ in_snapshot b) l.

(** Two storages with the same files and directories, the snapshots and
    their two directories apart. *)
Definition same_outside (d1 d2 : Storage) : Prop :=
  (forall p, ~ in_snapshot p -> files d1 !! p = files d2 !! p) /\
  (forall q, q <> join out_dir "no_registration" ->
             q <> join out_dir "no_midway" ->
             q ∈ dirs d1 <-> q ∈ dirs d2).

(** A call whose result and whose effect outside the snapshots do not
    depend on the snapshots. *)
Definition blind {A} (f : Storage -> outcome A * Storage) : Prop :=
  forall d1 d2, same_outside d1 d2 ->
    (f d1).1 = (f d2).1 /\ same_outside (f d1).2 (f d2).2.

(** A call that writes at most the file [o]. *)
Definition writes_only (o : string) (f : Storage -> outcome unit * Storage)
  : Prop :=
  forall d, (forall p, p <> o -> files (f d).2 !! p = files d !! p) /\
            dirs (f d).2 = dirs d.

(** What is assumed of the collaborators: acquisition does not put
    artifacts among the snapshots; registration, in-place trimming and
    equalization of artifacts do not look at the snapshots; trimming into
    a snapshot writes that snapshot only. *)
Record snapshot_blind (lon lat : Coord) : Prop := {
  acquired_outside : forall img bands w h d l,
    (get_crops_from_kayrros_api C img bands lon lat w h out_dir d).1
      = Returned l -> outside l;
  registration_blind : forall crops,
    Forall outside crops -> blind (registration_main C crops crops true);
  trim_blind : forall b w h,
    ~ in_snapshot b -> blind (crop_georeferenced_image C b b lon lat w h);
  snapshot_trim_local : forall o b w h,
    in_snapshot o ->
    writes_only o (crop_georeferenced_image C o b lon lat w h);
  midway_blind : forall group,
    outside group -> blind (midway_main C group out_dir)
}.

Definition blind_run {A} (m : M A) : Prop :=
  forall d1 d2, same_outside d1 d2 ->
    result (m d1) = result (m d2) /\
    same_outside (final (m d1)) (final (m d2)).

(** [m1] with snapshots does what [m0] does without. *)
Definition simulates (m1 m0 : M unit) : Prop :=
  forall d1 d0 u, same_outside d1 d0 -> result (m1 d1) = Returned u ->
    result (m0 d0) = Returned u /\
    same_outside (final (m1 d1)) (final (m0 d0)).

(** A run ended by an exception of a snapshot call: the run raised, and
    the last call it made is a snapshot call. No exception is caught, so
    the last call of a run that raised is the call that raised. *)
Definition aborted_by_snapshot {A} (r : Run A) : Prop :=
  (exists e, result r = Raised e) /\
  exists t c, trace r = t ++ [c] /\ is_snapshot c = true.

(** [m1] with snapshots ends as [m0] without, with the same result, be it
    an exception, unless a snapshot call ends [m1]. *)
Definition agrees_unless_aborted (m1 m0 : M unit) : Prop :=
  forall d1 d0, same_outside d1 d0 ->
    aborted_by_snapshot (m1 d1) \/
    (result (m1 d1) = result (m0 d0) /\
     same_outside (final (m1 d1)) (final (m0 d0))).

(** Two runs that leave the same working artifacts: the same files
    outside the snapshots. *)
Definition same_working_artifacts (r1 r0 : Run unit) : Prop :=
  forall p, ~ in_snapshot p -> files (final r1) !! p = files (final r0) !! p.

End Properties.

(** ** A sample world

    Concrete collaborators on which the pipeline can be run: a catalog of
    three kinds of scene, rasters of one row with a sample every 50 meters,
    a registration that mirrors each raster, an equalization that adds one
    to each sample, and a trim that drops the samples outside the new
    width on both sides. *)

Module Sample.

Inductive scene := Clear | Blank | Partial.

Definition names (s : scene) : list string :=
  match s with
  | Clear => ["a2.tif"; "a3.tif"; "a4.tif"]
  | Blank => ["b2.tif"; "b3.tif"; "b4.tif"]
  | Partial => ["c2.tif"; "c3.tif"]
  end%string.

Definition samples (s : scene) (w : Z) : list Z :=
  match s with
  | Blank => repeat 0 (Z.to_nat (w / 50))
  | _ => map Z.of_nat (seq 1 (Z.to_nat (w / 50)))
  end.

Definition write_all (paths : list string) (a : Artifact)
    (m : gmap string Artifact) : gmap string Artifact :=
  foldr (fun p m => <[p := a]> m) m paths.

Definition alter_all (f : Artifact -> Artifact) (paths : list string)
    (m : gmap string Artifact) : gmap string Artifact :=
  foldr (fun p m => alter f p m) m paths.

Definition acquire (img : scene) (bands : list string) (lon lat : Z)
    (w h : Z) (out_dir : string) (d : Storage)
  : outcome (list string) * Storage :=
  let paths := map (join out_dir) (firstn (length bands) (names img)) in
  (Returned paths,
   mkStorage (write_all paths (mkArtifact (samples img w) w h) (files d))
     (dirs d)).

Definition mirror (a : Artifact) : Artifact :=
  mkArtifact (rev (raster a)) (width a) (height a).

Definition brighten (a : Artifact) : Artifact :=
  mkArtifact (map (Z.add 1) (raster a)) (width a) (height a).

Definition window (a : Artifact) (w h : Z) : Artifact :=
  let k := Z.to_nat ((width a - w) / 100) in
  mkArtifact (firstn (length (raster a) - 2 * k) (skipn k (raster a))) w h.

Definition trim (o b : string) (lon lat : Z) (w h : Z) (d : Storage)
  : outcome unit * Storage :=
  match files d !! b with
  | Some a =>
      (Returned tt, mkStorage (<[o := window a w h]> (files d)) (dirs d))
  | None => (Raised (CollaboratorError "crop_georeferenced_image"), d)
  end.

Definition world (catalog : list scene) : @Collaborators Z Z scene :=
  {| list_images := fun _ _ _ _ d => (Returned catalog, d);
     get_crops_from_kayrros_api := acquire;
     registration_main := fun a _ _ d =>
       (Returned tt,
        mkStorage (alter_all mirror (concat a) (files d)) (dirs d));
     midway_main := fun group _ d =>
       (Returned tt,
        mkStorage (alter_all brighten group (files d)) (dirs d));
     crop_georeferenced_image := trim |}.

Definition empty_disk : Storage := mkStorage ∅ ∅.

Definition bands234 : list string := ["2"; "3"; "4"]%string.

Definition catalog : list scene := [Clear; Blank; Partial].

(** A run over the three scenes, for a target of 200 x 200 meters at
    the origin, into the current directory. *)
Definition run (register equalize debug : bool) : Run unit :=
  get_time_series (world catalog) 0 0 bands234 200 200 register equalize
    "" None None debug empty_disk.

(** A run over one clear scene and one band. *)
Definition run_one (register equalize debug : bool) : Run unit :=
  get_time_series (world [Clear]) 0 0 ["2"%string] 200 200 register
    equalize "" None None debug empty_disk.

(** A run when discovery finds nothing. *)
Definition run_none (register equalize debug : bool) : Run unit :=
  get_time_series (world []) 0 0 bands234 200 200 register equalize
    "" None None debug empty_disk.

(** Paths that begin like the two snapshot directories. *)
Definition starts_with_n (p : string) : bool :=
  match p with
  | String c _ => bool_decide (c = "n"%char)
  | EmptyString => false
  end.

(** The storage after the acquisition of the blank scene, and its
    files. *)
Definition blank_acquired : Storage :=
  (acquire Blank bands234 0 0 300 300 "" empty_disk).2.

Definition blank_files : list string := ["b2.tif"; "b3.tif"; "b4.tif"]%string.

(** The storage when the one clear scene has been collected, just
    before the registration stage. *)
Definition one_collected : Storage :=
  final (collect (world [Clear]) 0 0 ["2"%string] 200 200 true ""
           None None empty_disk).

(** The storage and the time series when the three scenes have been
    collected. *)
Definition three_collected : Storage :=
  final (collect (world catalog) 0 0 bands234 200 200 false "" None None
           empty_disk).

Definition three_series : list (list string) :=
  [["a2.tif"; "a3.tif"; "a4.tif"]; ["c2.tif"; "c3.tif"]]%string.

End Sample.

(** ** The command line *)

(** [str(i)] for a natural number: its decimal digits. *)
Definition str (i : nat) : string := NilZero.string_of_uint (Nat.to_uint i).

(** Line 48: [[str(i) for i in xrange(1, 12)]]. *)
Definition all_bands : list string := map str (seq 1 11).

Section CommandLine.

Context {Coord Date Scene : Type}.

(** What a command line gives: the two required coordinates, each option
    that was given ([None] for one that was not) and the flags. The
    conversions of the words ([float], [int], [utils.valid_date]) have
    been done. *)
Record CommandLine := mkCommandLine {
  given_lat : Coord;
  given_lon : Coord;
  given_start_date : option Date;
  given_end_date : option Date;
  given_band : option (list string);
  given_register : bool;
  given_midway : bool;
  given_size : option Z;
  given_outdir : option string;
  given_debug : bool
}.

(** [args], the result of [parser.parse_args()]. *)
Record Namespace := mkNamespace {
  args_lat : Coord;
  args_lon : Coord;
  args_start_date : option Date;
  args_end_date : option Date;
  args_band : list string;
  args_register : bool;
  args_midway : bool;
  args_size : Z;
  args_outdir : string;
  args_debug : bool
}.

(** Lines 103-124: an option that is not given takes its default. *)
Definition parse_args (cl : CommandLine) : Namespace :=
  {| args_lat := given_lat cl;
     args_lon := given_lon cl;
     args_start_date := given_start_date cl;
     args_end_date := given_end_date cl;
     args_band := default all_bands (given_band cl);
     args_register := given_register cl;
     args_midway := given_midway cl;
     args_size := default 5000 (given_size cl);
     args_outdir := default EmptyString (given_outdir cl);
     args_debug := given_debug cl |}.

(** Lines 102-129, the body of [if __name__ == '__main__':]. *)
Definition main (C : @Collaborators Coord Date Scene) (cl : CommandLine)
  : @M Coord Date Scene unit :=
  let args := parse_args cl in
  get_time_series C (args_lat args) (args_lon args) (args_band args)
    (args_size args) (args_size args) (args_register args)
    (args_midway args) (args_outdir args) (args_start_date args)
    (args_end_date args) (args_debug args).

End CommandLine.

(** ** Further vocabulary: plans, interfaces of the collaborators *)

Section Interfaces.

Context {Coord Date Scene : Type}.
Variable C : @Collaborators Coord Date Scene.

Abbreviation Call := (@Call Coord Date Scene).

(** The calls of the stages that follow collection, for the time series
    [crops] and the target size [w] x [h], in the order of the code. *)
Definition stage_calls (lon lat : Coord) (bands : list string) (w h : Z)
    (register equalize : bool) (out_dir : string) (debug : bool)
    (crops : list (list string)) : list Call :=
  (if register then registration_calls lon lat w h out_dir debug crops
   else [])
  ++ (if equalize then equalization_calls bands out_dir debug crops
      else []).

(** What a call of a run started from the command line [cl] carries: the
    coordinates and dates given; the bands, the size and the directory
    given or their defaults; one number for width and height, the margin
    added for acquisitions under [-r]; and each stage only under its
    flag. *)
Definition from_command_line (cl : @CommandLine Coord Date) (c : Call)
  : Prop :=
  let size := default 5000 (given_size cl) in
  let dir := default EmptyString (given_outdir cl) in
  match c with
  | ListImages lat lon sd ed =>
      lat = given_lat cl /\ lon = given_lon cl /\
      sd = given_start_date cl /\ ed = given_end_date cl
  | GetCrops _ bands lon lat w h out_dir =>
      bands = default all_bands (given_band cl) /\
      lon = given_lon cl /\ lat = given_lat cl /\
      w = (if given_register cl then size + 100 else size) /\ h = w /\
      out_dir = dir
  | CropGeoreferenced _ _ lon lat w h =>
      given_register cl = true /\
      lon = given_lon cl /\ lat = given_lat cl /\ w = size /\ h = size
  | RegistrationMain _ _ all_pairwise =>
      given_register cl = true /\ all_pairwise = true
  | MidwayMain _ out_dir => given_midway cl = true /\ out_dir = dir
  | MkdirP _ | ShutilCopy _ _ => given_debug cl = true
  | Imread _ | Remove _ => True
  end.

(** The file [b] of [d] covers [w] x [h]. *)
Definition has_footprint (d : Storage) (w h : Z) (b : string) : Prop :=
  exists a, files d !! b = Some a /\ width a = w /\ height a = h.

(** Interface of acquisition: the artifacts of a scene are files of that
    scene ([paths_of]), distinct, written by the call, which writes
    nothing else; two scenes share no file. *)
Record writes_scene_files (paths_of : Scene -> list string)
    (bands : list string) (lon lat : Coord) (w h : Z) (out_dir : string)
  : Prop := {
  scenes_apart : forall img img' x,
    img <> img' -> x ∈ paths_of img -> x ∉ paths_of img';
  acquired_files : forall img d l d',
    get_crops_from_kayrros_api C img bands lon lat w h out_dir d
      = (Returned l, d') ->
    NoDup l /\
    (forall x, x ∈ l -> x ∈ paths_of img /\ is_Some (files d' !! x)) /\
    (forall p, p ∉ l -> files d' !! p = files d !! p)
}.

(** Interface of trimming in place: on a file that is there the call
    returns, the file then covers the size asked for, and no other file
    changes. *)
Definition trims_to_size (lon lat : Coord) : Prop :=
  forall b w h d,
    is_Some (files d !! b) ->
    let o := crop_georeferenced_image C b b lon lat w h d in
    o.1 = Returned tt /\ has_footprint o.2 w h b /\
    (forall p, p <> b -> files o.2 !! p = files d !! p).

(** Interface of registration: on artifacts that are there the call
    returns and the artifacts are still there. *)
Definition registration_keeps_files : Prop :=
  forall crops d,
    (forall b, b ∈ concat crops -> is_Some (files d !! b)) ->
    let o := registration_main C crops crops true d in
    o.1 = Returned tt /\
    (forall b, b ∈ concat crops -> is_Some (files o.2 !! b)).

End Interfaces.

(** ** More of the sample world *)

Module SampleMore.

Import Sample.

#[global] Instance scene_eq_dec : EqDecision scene.
Proof. solve_decision. Defined.

(** The files of a scene, in the current directory. *)
Definition paths_of (s : scene) : list string := map (join "") (names s).

(** The storage once the clear and then the blank scene are acquired. *)
Definition clear_and_blank : Storage :=
  (acquire Blank bands234 0 0 300 300 ""
     (acquire Clear bands234 0 0 300 300 "" empty_disk).2).2.

(** An acquisition that returns the first file of the scene twice. *)
Definition acquire_repeating (img : scene) (bands : list string)
    (lon lat : Z) (w h : Z) (out_dir : string) (d : Storage)
  : outcome (list string) * Storage :=
  let o := acquire img bands lon lat w h out_dir d in
  match o.1 with
  | Returned (x :: l) => (Returned (x :: l ++ [x]), o.2)
  | _ => o
  end.

Definition world_repeating : @Collaborators Z Z scene :=
  {| list_images := list_images (world catalog);
     get_crops_from_kayrros_api := acquire_repeating;
     registration_main := registration_main (world catalog);
     midway_main := midway_main (world catalog);
     crop_georeferenced_image := trim |}.

(** A registration that fails, leaving the files as they are. *)
Definition world_failing : @Collaborators Z Z scene :=
  {| list_images := list_images (world catalog);
     get_crops_from_kayrros_api := acquire;
     registration_main := fun _ _ _ d =>
       (Raised (CollaboratorError "registration"), d);
     midway_main := midway_main (world catalog);
     crop_georeferenced_image := trim |}.

(** The storage when the three scenes are collected at the working size
    of a run with registration. *)
Definition three_collected_wide : Storage :=
  final (collect (world catalog) 0 0 bands234 200 200 true "" None None
           empty_disk).

(** Two files of one name in two directories, and the time series they
    make. *)
Definition two_of_a_name : Storage :=
  mkStorage
    (<["x/a.tif" := mkArtifact [1; 2] 100 100]>
       (<["y/a.tif" := mkArtifact [3; 4] 100 100]> ∅)) ∅.

Definition series_of_a_name : list (list string) :=
  [["x/a.tif"]; ["y/a.tif"]]%string.

(** What a command line without any option gives. *)
Definition bare_command_line : @CommandLine Z Z :=
  mkCommandLine 0 0 None None None false false None None false.

(** A trim that rewrites a file in place as [trim] does, and fails when
    asked to write another file than its source. *)
Definition trim_in_place_only (o b : string) (lon lat : Z) (w h : Z)
    (d : Storage) : outcome unit * Storage :=
  if String.eqb o b then trim o b lon lat w h d
  else (Raised (CollaboratorError "crop_georeferenced_image"), d).

Definition world_in_place_only : @Collaborators Z Z scene :=
  {| list_images := list_images (world [Clear]);
     get_crops_from_kayrros_api := acquire;
     registration_main := registration_main (world [Clear]);
     midway_main := midway_main (world [Clear]);
     crop_georeferenced_image := trim_in_place_only |}.

(** A run with registration over one clear scene and one band, where
    the snapshot cannot be written. *)
Definition run_in_place_only (debug : bool) : Run unit :=
  get_time_series world_in_place_only 0 0 ["2"%string] 200 200 true false
    "" None None debug empty_disk.

End SampleMore.

(** ** Runs and traces: general facts *)

Section Runs.

Context {Coord Date Scene : Type}.

Abbreviation Call := (@Call Coord Date Scene).
Abbreviation M := (@M Coord Date Scene).
Abbreviation Run := (@Run Coord Date Scene).

Lemma run_eta {A} (r : Run A) : mkRun (result r) (final r) (trace r) = r.
Proof. by destruct r. Qed.

Lemma bind_returned {A B} (m : M A) (k : A -> M B) d a :
  result (m d) = Returned a ->
  bind m k d =
    mkRun (result (k a (final (m d)))) (final (k a (final (m d))))
          (trace (m d) ++ trace (k a (final (m d)))).
Proof. intros H. unfold bind. by rewrite H. Qed.

Lemma bind_raised {A B} (m : M A) (k : A -> M B) d e :
  result (m d) = Raised e ->
  bind m k d = mkRun (Raised e) (final (m d)) (trace (m d)).
Proof. intros H. unfold bind. by rewrite H. Qed.

(** A sequence that returns: both parts returned. *)
Lemma bind_inv {A B} (m : M A) (k : A -> M B) d b :
  result (bind m k d) = Returned b ->
  exists a,
    result (m d) = Returned a /\
    result (k a (final (m d))) = Returned b /\
    final (bind m k d) = final (k a (final (m d))) /\
    trace (bind m k d) = trace (m d) ++ trace (k a (final (m d))).
Proof.
  unfold bind. destruct (result (m d)) as [a|e] eqn:E; simpl; [|done].
  intros H. by exists a.
Qed.

Lemma bind_ret_l {A B} (a : A) (k : A -> M B) d : bind (ret a) k d = k a d.
Proof. unfold bind, ret. simpl. apply run_eta. Qed.

Lemma bind_assoc {A B D} (m : M A) (k : A -> M B) (k' : B -> M D) d :
  bind (bind m k) k' d = bind m (fun a => bind (k a) k') d.
Proof.
  unfold bind. destruct (result (m d)) as [a|e]; simpl; [|done].
  destruct (result (k a (final (m d)))) as [b|e]; simpl; [|done].
  by rewrite app_assoc.
Qed.

Lemma emits_only_ret {A} (P : Call -> Prop) (a : A) : emits_only P (ret a).
Proof. intros d. constructor. Qed.

Lemma emits_only_invoke {A} (P : Call -> Prop) c
    (f : Storage -> outcome A * Storage) :
  P c -> emits_only P (invoke c f).
Proof. intros H d. simpl. by repeat constructor. Qed.

Lemma emits_only_bind {A B} P (m : M A) (k : A -> M B) :
  emits_only P m -> (forall a, emits_only P (k a)) ->
  emits_only P (bind m k).
Proof.
  intros Hm Hk d. unfold bind.
  destruct (result (m d)) as [a|e]; simpl; [|apply Hm].
  apply Forall_app. split; [apply Hm | apply Hk].
Qed.

Lemma emits_only_for_each {A} P (l : list A) (body : A -> M unit) :
  (forall x, x ∈ l -> emits_only P (body x)) ->
  emits_only P (for_each l body).
Proof.
  induction l as [|x l IH]; intros H; simpl.
  - apply emits_only_ret.
  - apply emits_only_bind; [apply H; left | intros _; apply IH].
    intros y Hy. apply H. by right.
Qed.

Lemma emits_only_for_each_artifact P crops (body : string -> M unit) :
  (forall b, emits_only P (body b)) ->
  emits_only P (for_each_artifact crops body).
Proof.
  intros H. apply emits_only_for_each. intros crop _.
  apply emits_only_for_each. auto.
Qed.

Lemma emits_only_weaken {A} (P Q : Call -> Prop) (m : M A) :
  (forall c, P c -> Q c) -> emits_only P m -> emits_only Q m.
Proof. intros HPQ H d. eapply Forall_impl; [apply H | done]. Qed.

End Runs.

Create HintDb emits discriminated.
#[export] Hint Resolve emits_only_ret emits_only_invoke emits_only_bind
  emits_only_for_each emits_only_for_each_artifact : emits.

(** ** Footprints requested by the pipeline *)

Section Footprints.

Context {Coord Date Scene : Type}.
Variable C : @Collaborators Coord Date Scene.

Abbreviation Call := (@Call Coord Date Scene).

Lemma all_any_emits (P : Call -> Prop) l :
  (forall x, P (Imread x)) -> emits_only P (all_any l).
Proof.
  intros H. induction l as [|x l IH]; simpl; auto with emits.
  apply emits_only_bind; auto with emits.
  intros a. destruct (Py.any a); auto with emits.
Qed.

Lemma download_emits (P : Call -> Prop) img bands lon lat w h out_dir crops :
  P (GetCrops img bands lon lat w h out_dir) ->
  (forall x, P (Imread x)) -> (forall x, P (Remove x)) ->
  emits_only P (download C img bands lon lat w h out_dir crops).
Proof.
  intros Hg Hi Hr. unfold download.
  apply emits_only_bind; auto with emits.
  intros [|x l]; [auto with emits|].
  apply emits_only_bind; [by apply all_any_emits|].
  intros [|]; auto 6 with emits.
Qed.

Lemma download_all_emits (P : Call -> Prop) images bands lon lat w h
    out_dir crops :
  (forall img, P (GetCrops img bands lon lat w h out_dir)) ->
  (forall x, P (Imread x)) -> (forall x, P (Remove x)) ->
  emits_only P (download_all C images bands lon lat w h out_dir crops).
Proof.
  intros Hg Hi Hr. revert crops.
  induction images as [|img rest IH]; intros crops; simpl;
    auto with emits.
  apply emits_only_bind; [by apply download_emits | auto].
Qed.

Lemma collect_emits (P : Call -> Prop) lat lon bands w h register out_dir
    sd ed :
  P (ListImages lat lon sd ed) ->
  (forall img, P (GetCrops img bands lon lat (working_size register w)
                    (working_size register h) out_dir)) ->
  (forall x, P (Imread x)) -> (forall x, P (Remove x)) ->
  emits_only P (collect C lat lon bands w h register out_dir sd ed).
Proof.
  intros Hl Hg Hi Hr. unfold collect.
  apply emits_only_bind; auto with emits.
  intros images. by apply download_all_emits.
Qed.

Lemma register_images_emits (P : Call -> Prop) lon lat w h out_dir debug
    crops :
  (debug = true -> P (MkdirP (join out_dir "no_registration"))) ->
  (debug = true -> forall b,
      P (CropGeoreferenced (join (join out_dir "no_registration")
                              (basename b)) b lon lat (w - 100) (h - 100))) ->
  P (RegistrationMain crops crops true) ->
  (forall b, P (CropGeoreferenced b b lon lat (w - 100) (h - 100))) ->
  emits_only P (register_images C lon lat w h out_dir debug crops).
Proof.
  intros Hm Hs Hr Ht. unfold register_images, snapshot_before_registration.
  apply emits_only_bind.
  - destruct debug; auto 6 with emits.
  - intros _. apply emits_only_bind; auto with emits.
Qed.

Lemma equalize_images_emits (P : Call -> Prop) bands out_dir debug crops :
  (debug = true -> P (MkdirP (join out_dir "no_midway"))) ->
  (debug = true -> forall b, P (ShutilCopy b (join out_dir "no_midway"))) ->
  (forall i, P (MidwayMain (band_group crops i) out_dir)) ->
  emits_only P (equalize_images C bands out_dir debug crops).
Proof.
  intros Hm Hc Hq. unfold equalize_images, snapshot_before_equalization.
  apply emits_only_bind.
  - destruct debug; auto 6 with emits.
  - intros _. auto with emits.
Qed.

(** C4. The working width and height are the target ones plus 100 when
    [register] is true and the target ones when it is false; every
    acquisition of a run asks for the working size, and a run without
    [register] makes no call at all that rewrites a raster at a given
    size, so none beyond the target size. This holds for every run,
    also one that a collaborator aborts. *)
Theorem working_size_margin lat lon bands w h register equalize out_dir
    sd ed debug d :
  working_size register w = (if register then w + 100 else w) /\
  working_size register h = (if register then h + 100 else h) /\
  Forall (footprint_ok register w h)
    (trace (get_time_series C lat lon bands w h register equalize out_dir
              sd ed debug d)).
Proof.
  split; [done|]. split; [done|]. revert d.
  change (emits_only (footprint_ok register w h)
            (get_time_series C lat lon bands w h register equalize out_dir
               sd ed debug)).
  unfold get_time_series. apply emits_only_bind.
  { apply collect_emits; simpl; auto. }
  intros crops. apply emits_only_bind.
  - destruct register; auto with emits.
    apply register_images_emits; simpl; auto;
      intros; repeat split; unfold working_size; lia.
  - intros _. destruct equalize; auto with emits.
    apply equalize_images_emits; simpl; auto.
Qed.

End Footprints.

(** ** The calls of a run that returns *)

Section Shapes.

Context {Coord Date Scene : Type}.
Variable C : @Collaborators Coord Date Scene.

Abbreviation Call := (@Call Coord Date Scene).
Abbreviation M := (@M Coord Date Scene).

Lemma bind_ext {A B} (m : M A) (k k' : A -> M B) d :
  (forall a d', k a d' = k' a d') -> bind m k d = bind m k' d.
Proof. intros H. unfold bind. destruct (result (m d)); by rewrite ?H. Qed.

Lemma for_each_app {A} (l1 l2 : list A) (body : A -> M unit) d :
  for_each (l1 ++ l2) body d =
  (for_each l1 body ;;; for_each l2 body) d.
Proof.
  revert d. induction l1 as [|x l1 IH]; intros d; simpl.
  - by rewrite bind_ret_l.
  - rewrite bind_assoc. apply bind_ext. intros _ d'. apply IH.
Qed.

Lemma for_each_artifact_concat crops (body : string -> M unit) d :
  for_each_artifact crops body d = for_each (concat crops) body d.
Proof.
  unfold for_each_artifact. revert d.
  induction crops as [|crop crops IH]; intros d; simpl; [done|].
  rewrite for_each_app. apply bind_ext. intros _ d'. apply IH.
Qed.

(** A loop of single calls that returns has made one call per element,
    in order. *)
Lemma for_each_invoke_trace {A} (ev : A -> Call)
    (f : A -> Storage -> outcome unit * Storage) l d u :
  result (for_each l (fun x => invoke (ev x) (f x)) d) = Returned u ->
  trace (for_each l (fun x => invoke (ev x) (f x)) d) = map ev l.
Proof.
  revert d. induction l as [|x l IH]; intros d H; simpl in *; [done|].
  apply bind_inv in H as (a & _ & H & _ & ->). simpl.
  f_equal. by apply IH.
Qed.

Lemma for_each_artifact_invoke_trace (ev : string -> Call)
    (f : string -> Storage -> outcome unit * Storage) crops d u :
  result (for_each_artifact crops (fun b => invoke (ev b) (f b)) d)
    = Returned u ->
  trace (for_each_artifact crops (fun b => invoke (ev b) (f b)) d)
    = map ev (concat crops).
Proof.
  rewrite for_each_artifact_concat. apply for_each_invoke_trace.
Qed.

Lemma register_images_trace lon lat w h out_dir debug crops d u :
  result (register_images C lon lat w h out_dir debug crops d)
    = Returned u ->
  trace (register_images C lon lat w h out_dir debug crops d)
    = registration_calls lon lat (w - 100) (h - 100) out_dir debug crops.
Proof.
  unfold register_images, snapshot_before_registration, registration_calls.
  intros H.
  apply bind_inv in H as (? & Hsnap & H & _ & ->).
  apply bind_inv in H as (? & _ & H & _ & ->).
  f_equal.
  - destruct debug; [|done].
    apply bind_inv in Hsnap as (? & _ & Hsnap & _ & ->). simpl. f_equal.
    eapply for_each_artifact_invoke_trace, Hsnap.
  - simpl. f_equal. eapply for_each_artifact_invoke_trace, H.
Qed.

Lemma equalize_images_trace bands out_dir debug crops d u :
  result (equalize_images C bands out_dir debug crops d) = Returned u ->
  trace (equalize_images C bands out_dir debug crops d)
    = equalization_calls bands out_dir debug crops.
Proof.
  unfold equalize_images, snapshot_before_equalization, equalization_calls.
  intros H.
  apply bind_inv in H as (? & Hsnap & H & _ & ->).
  f_equal.
  - destruct debug; [|done].
    apply bind_inv in Hsnap as (? & _ & Hsnap & _ & ->). simpl. f_equal.
    eapply for_each_artifact_invoke_trace, Hsnap.
  - eapply (for_each_invoke_trace
              (fun i => MidwayMain (band_group crops i) out_dir)), H.
Qed.

(** A run that returns: the time series was collected, then the calls of
    each requested stage were made, in this order. *)
Lemma get_time_series_trace lat lon bands w h register equalize out_dir
    sd ed debug d u :
  result (get_time_series C lat lon bands w h register equalize out_dir
            sd ed debug d) = Returned u ->
  exists crops,
    result (collect C lat lon bands w h register out_dir sd ed d)
      = Returned crops /\
    trace (get_time_series C lat lon bands w h register equalize out_dir
             sd ed debug d)
      = trace (collect C lat lon bands w h register out_dir sd ed d)
        ++ (if register
            then registration_calls lon lat w h out_dir debug crops
            else [])
        ++ (if equalize
            then equalization_calls bands out_dir debug crops
            else []).
Proof.
  unfold get_time_series. intros H.
  apply bind_inv in H as (crops & Hc & H & _ & ->).
  apply bind_inv in H as (? & Hr & H & _ & ->).
  exists crops. split; [done|]. f_equal. f_equal.
  - destruct register; [|done].
    erewrite register_images_trace by apply Hr.
    unfold working_size. f_equal; lia.
  - destruct equalize; [|done].
    by erewrite equalize_images_trace by apply H.
Qed.

End Shapes.

(** ** Kinds of calls *)

Section Kinds.

Context {Coord Date Scene : Type}.

Abbreviation Call := (@Call Coord Date Scene).

Lemma filter_none (p : Call -> bool) (l : list Call) :
  Forall (fun c => p c = false) l -> List.filter p l = [].
Proof.
  induction 1 as [|c l Hc _ IH]; simpl; [done|]. by rewrite Hc.
Qed.

Lemma filter_all (p : Call -> bool) (l : list Call) :
  Forall (fun c => p c = true) l -> List.filter p l = l.
Proof.
  induction 1 as [|c l Hc _ IH]; simpl; [done|]. by rewrite Hc, IH.
Qed.

Lemma Forall_map_const {A} (P : Call -> Prop) (ev : A -> Call) l :
  (forall x, P (ev x)) -> Forall P (map ev l).
Proof. intros H. apply Forall_map, Forall_forall. auto. Qed.

End Kinds.

(** ** Band grouping and equalization *)

Section Equalization.

Context {Coord Date Scene : Type}.
Variable C : @Collaborators Coord Date Scene.

Lemma band_group_artifacts_at crops i :
  band_group crops i = artifacts_at crops i.
Proof.
  unfold artifacts_at.
  induction crops as [|crop crops IH]; simpl; [done|].
  rewrite filter_cons. case_bool_decide as Hlt.
  - rewrite decide_True by done. simpl.
    destruct (lookup_lt_is_Some_2 crop i Hlt) as [x Hx].
    rewrite Hx. simpl. by rewrite IH.
  - by rewrite decide_False by done.
Qed.

Lemma band_group_length crops i :
  length (band_group crops i) =
  length (filter (fun crop : list string => (i < length crop)%nat) crops).
Proof.
  induction crops as [|crop crops IH]; simpl; [done|].
  rewrite filter_cons. case_bool_decide as Hlt.
  - rewrite decide_True by done.
    destruct (lookup_lt_is_Some_2 crop i Hlt) as [x Hx].
    rewrite Hx. simpl. by rewrite IH.
  - by rewrite decide_False by done.
Qed.

Lemma collect_is_collecting lat lon bands w h register out_dir sd ed d :
  Forall (fun c => is_collecting c = true)
    (trace (collect C lat lon bands w h register out_dir sd ed d)).
Proof. revert d. by apply collect_emits. Qed.

Lemma collecting_not (p : @Call Coord Date Scene -> bool) l :
  (forall c, is_collecting c = true -> p c = false) ->
  Forall (fun c => is_collecting c = true) l ->
  List.filter p l = [].
Proof.
  intros Hp Hl. apply filter_none. eapply Forall_impl; [apply Hl|].
  simpl. auto.
Qed.

(** C2. In a run with [equalize] that returns, the equalization calls
    are, in order, one per band index [i] below the number of requested
    bands, each on the group [band_group crops i] of the collected time
    series; that group is the artifacts at position [i] of the crop sets
    longer than [i], in time-series order, so it has as many entries as
    there are such crop sets. *)
Theorem equalization_band_groups lat lon bands w h register out_dir
    sd ed debug d u :
  result (get_time_series C lat lon bands w h register true out_dir
            sd ed debug d) = Returned u ->
  exists crops,
    result (collect C lat lon bands w h register out_dir sd ed d)
      = Returned crops /\
    List.filter is_midway
      (trace (get_time_series C lat lon bands w h register true out_dir
                sd ed debug d))
      = map (fun i => MidwayMain (band_group crops i) out_dir)
            (seq 0 (length bands)) /\
    forall i,
      band_group crops i = artifacts_at crops i /\
      length (band_group crops i) =
      length (filter (fun crop : list string => (i < length crop)%nat)
                crops).
Proof.
  intros H. apply get_time_series_trace in H as (crops & Hc & ->).
  exists crops. split; [done|]. split.
  - rewrite !List.filter_app.
    rewrite (collecting_not is_midway);
      [|by intros []|apply collect_is_collecting].
    assert (List.filter is_midway
              (if register
               then registration_calls lon lat w h out_dir debug crops
               else []) = []) as ->.
    { destruct register; [|done]. unfold registration_calls.
      rewrite List.filter_app. simpl.
      rewrite !filter_none; [done| |];
        [by apply Forall_map_const|].
      destruct debug; [|done]. constructor; [done|].
      by apply Forall_map_const. }
    unfold equalization_calls. rewrite List.filter_app.
    rewrite (filter_none _ (if debug then _ else _)).
    + simpl. apply filter_all. by apply Forall_map_const.
    + destruct debug; [|done]. constructor; [done|].
      by apply Forall_map_const.
  - intros i. split;
      [apply band_group_artifacts_at | apply band_group_length].
Qed.

End Equalization.

(** ** Registration and the margin *)

Section Registration.

Context {Coord Date Scene : Type}.
Variable C : @Collaborators Coord Date Scene.

Abbreviation Call := (@Call Coord Date Scene).

Lemma equalization_calls_kinds bands out_dir debug crops :
  Forall (fun c : Call => is_trim c = false /\ is_registration c = false /\
                          is_collecting c = false)
    (equalization_calls bands out_dir debug crops).
Proof.
  unfold equalization_calls, midway_calls. apply Forall_app. split.
  - destruct debug; [|done]. constructor; [done|].
    by apply Forall_map_const.
  - by apply Forall_map_const.
Qed.

Lemma snapshot_part_kinds lon lat w h out_dir crops (debug : bool) :
  Forall (fun c : Call => is_registration c = false /\
                          is_collecting c = false)
    (if debug
     then MkdirP (join out_dir "no_registration")
          :: snapshot_trims lon lat w h out_dir crops
     else []).
Proof.
  destruct debug; [|done]. constructor; [done|].
  by apply Forall_map_const.
Qed.


(** C8, as the code has it. In a run with [register] that returns, the
    registration collaborator is called exactly once, on the collected
    time series as both collections and with [all_pairwise] true; every
    call of discovery, acquisition and filtering precedes it, and every
    in-place trim follows it. Between the two, when [debug] is true, the
    snapshot directory is created and the trim collaborator writes one
    target-size snapshot per artifact into it. *)
Theorem registration_once lat lon bands w h equalize out_dir
    sd ed debug d u :
  result (get_time_series C lat lon bands w h true equalize out_dir
            sd ed debug d) = Returned u ->
  exists crops,
    result (collect C lat lon bands w h true out_dir sd ed d)
      = Returned crops /\
    trace (get_time_series C lat lon bands w h true equalize out_dir
             sd ed debug d)
      = trace (collect C lat lon bands w h true out_dir sd ed d)
        ++ (if debug
            then MkdirP (join out_dir "no_registration")
                 :: snapshot_trims lon lat w h out_dir crops
            else [])
        ++ RegistrationMain crops crops true
        :: margin_trims lon lat w h crops
        ++ (if equalize then equalization_calls bands out_dir debug crops
            else []) /\
    Forall (fun c => is_collecting c = true)
      (trace (collect C lat lon bands w h true out_dir sd ed d)) /\
    Forall (fun c : Call => is_collecting c = false)
      (if equalize then equalization_calls bands out_dir debug crops
       else []) /\
    List.filter is_registration
      (trace (get_time_series C lat lon bands w h true equalize out_dir
                sd ed debug d))
      = [RegistrationMain crops crops true].
Proof.
  intros H. apply get_time_series_trace in H as (crops & Hc & ->).
  exists crops. split; [done|].
  assert (Forall (fun c : Call => is_collecting c = false)
            (if equalize
             then equalization_calls bands out_dir debug crops else []))
    as Heq.
  { destruct equalize; [|done].
    eapply Forall_impl; [apply equalization_calls_kinds|]. simpl. tauto. }
  split; [|split; [apply collect_is_collecting|split; [done|]]].
  - unfold registration_calls.
    by rewrite <- !app_assoc, <- app_comm_cons.
  - rewrite !List.filter_app.
    rewrite (collecting_not is_registration);
      [|by intros []|apply collect_is_collecting].
    unfold registration_calls. rewrite List.filter_app. simpl.
    rewrite (filter_none _ (if debug then _ else _)).
    2:{ eapply Forall_impl; [apply snapshot_part_kinds|]. simpl. tauto. }
    rewrite (filter_none _ (margin_trims _ _ _ _ _)).
    2:{ by apply Forall_map_const. }
    rewrite (filter_none _ (if equalize then _ else _)); [done|].
    destruct equalize; [|done].
    eapply Forall_impl; [apply equalization_calls_kinds|]. simpl. tauto.
Qed.

(** C9. Without [debug], a run creates no directory, copies no file and
    trims no raster into another file than its source, whatever the
    other flags and however the run ends. *)
Theorem no_snapshot_without_debug lat lon bands w h register equalize
    out_dir sd ed d :
  Forall (fun c => is_snapshot c = false)
    (trace (get_time_series C lat lon bands w h register equalize out_dir
              sd ed false d)).
Proof.
  revert d.
  change (emits_only (fun c : Call => is_snapshot c = false)
            (get_time_series C lat lon bands w h register equalize out_dir
               sd ed false)).
  unfold get_time_series. apply emits_only_bind.
  { by apply collect_emits. }
  intros crops. apply emits_only_bind.
  - destruct register; auto with emits.
    apply register_images_emits; try done.
    intros b. simpl. by rewrite String.eqb_refl.
  - intros _. destruct equalize; auto with emits.
    by apply equalize_images_emits.
Qed.

End Registration.

(** ** An empty time series *)

Section EmptySeries.

Context {Coord Date Scene : Type}.
Variable C : @Collaborators Coord Date Scene.

Abbreviation Call := (@Call Coord Date Scene).
Abbreviation M := (@M Coord Date Scene).
Abbreviation after_empty := (after_empty C).

Lemma bind_trace_prefix {A B} (m : M A) (k : A -> M B) d :
  exists t, trace (bind m k d) = trace (m d) ++ t.
Proof.
  unfold bind. destruct (result (m d)); simpl; eauto.
  exists []. by rewrite app_nil_r.
Qed.

Lemma for_each_invoke_total {A} (ev : A -> Call)
    (f : A -> Storage -> outcome unit * Storage) l d :
  (forall x d', x ∈ l -> (f x d').1 = Returned tt) ->
  result (for_each l (fun x => invoke (ev x) (f x)) d) = Returned tt.
Proof.
  revert d. induction l as [|x l IH]; intros d H; simpl; [done|].
  unfold bind. simpl. rewrite H by left. simpl.
  apply IH. intros y d' Hy. apply H. by right.
Qed.

Lemma collect_empty lat lon bands w h register out_dir sd ed d d1 :
  list_images C lat lon sd ed d = (Returned [], d1) ->
  collect C lat lon bands w h register out_dir sd ed d
    = mkRun (Returned []) d1 [ListImages lat lon sd ed].
Proof.
  intros H. unfold collect, bind, invoke. simpl. by rewrite H.
Qed.

Lemma get_time_series_empty lat lon bands w h register equalize out_dir
    sd ed debug d d1 :
  list_images C lat lon sd ed d = (Returned [], d1) ->
  get_time_series C lat lon bands w h register equalize out_dir sd ed
    debug d
  = let r := after_empty lon lat bands (working_size register w)
               (working_size register h) register equalize out_dir debug
               d1 in
    mkRun (result r) (final r) (ListImages lat lon sd ed :: trace r).
Proof.
  intros H. unfold get_time_series.
  erewrite bind_returned; erewrite collect_empty by done; done.
Qed.

Lemma after_empty_emits lon lat bands w h register equalize out_dir debug :
  emits_only (fun c => touches_artifact c = false)
    (after_empty lon lat bands w h register equalize out_dir debug).
Proof.
  unfold after_empty, register_images, equalize_images,
    snapshot_before_registration, snapshot_before_equalization,
    for_each_artifact.
  simpl. apply emits_only_bind.
  - destruct register; auto with emits.
    destruct debug; auto 7 with emits.
  - intros _. destruct equalize; auto with emits.
    apply emits_only_bind; [destruct debug; auto 7 with emits|].
    intros _. apply emits_only_for_each. intros i _.
    by apply emits_only_invoke.
Qed.

(** C6, as the code has it. When discovery returns no scene the time
    series is empty and no artifact is acquired, read, removed, trimmed
    or copied. With [register] and [equalize] both false nothing else is
    called and the run returns, the storage as discovery left it. With
    [register] the registration collaborator is still called, on the
    empty time series; a run that returns has made exactly the calls
    listed: after discovery the registration call when [register], one
    equalization call on the empty group per requested band when
    [equalize], each preceded by the creation of its snapshot directory
    when [debug]; and the run returns whenever these two collaborators
    return on empty collections. *)
Theorem empty_discovery lat lon bands w h register equalize out_dir
    sd ed debug d d1 :
  list_images C lat lon sd ed d = (Returned [], d1) ->
  let r := get_time_series C lat lon bands w h register equalize out_dir
             sd ed debug d in
  result (collect C lat lon bands w h register out_dir sd ed d)
    = Returned [] /\
  Forall (fun c => touches_artifact c = false) (trace r) /\
  (register = false -> equalize = false ->
   result r = Returned tt /\ final r = d1 /\
   trace r = [ListImages lat lon sd ed]) /\
  (register = true -> In (RegistrationMain [] [] true) (trace r)) /\
  (result r = Returned tt ->
   trace r =
     ListImages lat lon sd ed
     :: (if register
         then (if debug then [MkdirP (join out_dir "no_registration")]
               else [])
              ++ [RegistrationMain [] [] true]
         else [])
     ++ (if equalize
         then (if debug then [MkdirP (join out_dir "no_midway")] else [])
              ++ map (fun _ => MidwayMain [] out_dir)
                   (seq 0 (length bands))
         else [])) /\
  ((forall d', (registration_main C [] [] true d').1 = Returned tt) ->
   (forall d', (midway_main C [] out_dir d').1 = Returned tt) ->
   result r = Returned tt).
Proof.
  intros H r. subst r.
  rewrite (get_time_series_empty _ _ _ _ _ _ _ _ _ _ _ _ _ H).
  cbv zeta. simpl.
  split; [by erewrite collect_empty|].
  split; [constructor; [done|apply after_empty_emits]|].
  split; [by intros -> ->|].
  split; [|split].
  - intros ->. right. unfold after_empty.
    destruct (bind_trace_prefix
                (register_images C lon lat (working_size true w)
                   (working_size true h) out_dir debug [])
                (fun _ => if equalize
                          then equalize_images C bands out_dir debug []
                          else ret tt) d1) as [t ->].
    apply in_or_app. left.
    unfold register_images, snapshot_before_registration,
      for_each_artifact. simpl.
    destruct debug; unfold bind; simpl.
    + destruct (registration_main C [] [] true _).1; simpl; auto.
    + destruct (registration_main C [] [] true _).1; simpl; auto.
  - intros Hr. f_equal. unfold after_empty in *.
    apply bind_inv in Hr as (? & Hreg & Heq & _ & ->). f_equal.
    + destruct register; [|done].
      erewrite register_images_trace by done.
      unfold registration_calls, snapshot_trims, margin_trims. simpl.
      by destruct debug.
    + destruct equalize; [|done].
      erewrite equalize_images_trace by done.
      unfold equalization_calls, midway_calls. simpl.
      by destruct debug.
  - intros Hreg Hmid. unfold after_empty.
    assert (forall d', result (register_images C lon lat
              (working_size register w) (working_size register h)
              out_dir debug [] d') = Returned tt) as Hr.
    { intros d'. unfold register_images, snapshot_before_registration,
        for_each_artifact. simpl.
      destruct debug; unfold bind; simpl; by rewrite Hreg. }
    assert (forall d', result (equalize_images C bands out_dir debug [] d')
                       = Returned tt) as He.
    { intros d'. unfold equalize_images, snapshot_before_equalization,
        for_each_artifact. simpl.
      unfold bind at 1.
      assert (forall d'', result (for_each (seq 0 (length bands))
                (fun i => invoke (MidwayMain [] out_dir : Call)
                            (midway_main C [] out_dir)) d'') = Returned tt)
        as Hloop.
      { intros d''.
        apply (for_each_invoke_total
                 (fun _ : nat => MidwayMain [] out_dir : Call)
                 (fun _ => midway_main C [] out_dir)). auto. }
      destruct debug; simpl; apply Hloop. }
    unfold bind. destruct register, equalize; simpl;
      rewrite ?Hr; simpl; rewrite ?He; done.
Qed.

Lemma in_trace_bind_l {A B} (m : M A) (k : A -> M B) d c :
  In c (trace (m d)) -> In c (trace (bind m k d)).
Proof.
  intros H. destruct (bind_trace_prefix m k d) as [t ->].
  apply in_or_app. by left.
Qed.

Lemma in_trace_bind_r {A B} (m : M A) (k : A -> M B) d a c :
  result (m d) = Returned a -> In c (trace (k a (final (m d)))) ->
  In c (trace (bind m k d)).
Proof.
  intros Hm H. rewrite (bind_returned _ _ _ _ Hm). simpl.
  apply in_or_app. by right.
Qed.

(** C10. With [debug], the snapshot directories are created whether or
    not there is an artifact to put into them. In a run whose collected
    time series is empty: with [register] the directory
    [no_registration] is created; with [equalize] the directory
    [no_midway] is created as soon as the run reaches that stage, that
    is when the registration stage is off or its call on the empty
    series returns; no file is copied or trimmed into either; and the
    creation itself always returns and leaves the directory in the
    storage. *)
Theorem snapshot_dirs_on_empty_series lat lon bands w h register equalize
    out_dir sd ed d :
  result (collect C lat lon bands w h register out_dir sd ed d)
    = Returned [] ->
  let r := get_time_series C lat lon bands w h register equalize out_dir
             sd ed true d in
  (register = true ->
   In (MkdirP (join out_dir "no_registration")) (trace r)) /\
  (equalize = true ->
   (register = true ->
    forall d', (registration_main C [] [] true d').1 = Returned tt) ->
   In (MkdirP (join out_dir "no_midway")) (trace r)) /\
  Forall (fun c => is_copy c = false) (trace r) /\
  (forall p d', (mkdir_p p d').1 = Returned tt /\
                p ∈ dirs (mkdir_p p d').2).
Proof.
  intros Hc r. subst r. unfold get_time_series.
  split; [|split; [|split]].
  - intros ->. eapply in_trace_bind_r; [apply Hc|].
    apply in_trace_bind_l.
    unfold register_images, snapshot_before_registration.
    do 2 apply in_trace_bind_l. by left.
  - intros -> Hreg. eapply in_trace_bind_r; [apply Hc|].
    assert (forall d', result ((if register
              then register_images C lon lat (working_size register w)
                     (working_size register h) out_dir true []
              else ret tt) d') = Returned tt) as Hr.
    { intros d'. destruct register; [|done].
      unfold register_images, snapshot_before_registration,
        for_each_artifact, bind. simpl.
      by rewrite Hreg. }
    eapply in_trace_bind_r; [apply Hr|].
    unfold equalize_images, snapshot_before_equalization.
    do 2 apply in_trace_bind_l. by left.
  - rewrite (bind_returned _ _ _ _ Hc). simpl. apply Forall_app. split.
    + generalize d. by apply collect_emits.
    + eapply Forall_impl;
        [apply (after_empty_emits lon lat bands
                  (working_size register w) (working_size register h)
                  register equalize out_dir true)|].
      by intros [].
  - intros p d'. split; [done|]. simpl. set_solver.
Qed.

End EmptySeries.

(** ** The validity filter *)

Section ValidityFilter.

Context {Coord Date Scene : Type}.
Variable C : @Collaborators Coord Date Scene.

Abbreviation Call := (@Call Coord Date Scene).
Abbreviation M := (@M Coord Date Scene).
Abbreviation Run := (@Run Coord Date Scene).

Lemma any_nonzero a : Py.any (raster a) = true <-> has_nonzero_sample a.
Proof.
  unfold Py.any, has_nonzero_sample. rewrite existsb_exists. split.
  - intros (v & Hin & Hv). exists v. split; [by apply list_elem_of_In|].
    intros ->. done.
  - intros (v & Hin & Hv). exists v. split; [by apply list_elem_of_In|].
    apply negb_true_iff, Z.eqb_neq, Hv.
Qed.

Lemma passes_all_nonzero d l : passes d l = true <-> all_nonzero d l.
Proof.
  unfold passes, all_nonzero. rewrite forallb_forall. split.
  - intros H x Hx. specialize (H x (proj1 (list_elem_of_In _ _) Hx)).
    destruct (files d !! x) as [a|]; [|done].
    exists a. split; [done|]. by apply any_nonzero.
  - intros H x Hx. destruct (H x (proj2 (list_elem_of_In _ _) Hx))
      as (a & -> & Ha). by apply any_nonzero.
Qed.

(** The test reads files and writes nothing; it returns when the files
    are there. *)
Lemma all_any_run l d :
  (forall x, x ∈ l -> is_Some (files d !! x)) ->
  let r : Run bool := all_any l d in
  result r = Returned (passes d l) /\ final r = d.
Proof.
  induction l as [|x l IH]; intros H; simpl; [done|].
  destruct (H x) as [a Ha]; [by left|].
  unfold bind, invoke, Py.imread. simpl. rewrite Ha. simpl.
  destruct (Py.any (raster a)); simpl; [|done].
  apply IH. intros y Hy. apply H. by right.
Qed.

(** Removing distinct files that are there: all are gone, nothing else
    changes. *)
Lemma remove_all_run l d :
  NoDup l -> (forall x, x ∈ l -> is_Some (files d !! x)) ->
  let r := for_each l (fun x => invoke (Remove x : Call) (Py.remove x)) d in
  result r = Returned tt /\ dirs (final r) = dirs d /\
  forall p, files (final r) !! p
            = if decide (p ∈ l) then None else files d !! p.
Proof.
  intros Hnd. revert d. induction Hnd as [|x l Hx Hnd IH]; intros d H.
  - simpl. by repeat split.
  - destruct (H x) as [a Ha]; [by left|].
    assert (invoke (Remove x : Call) (Py.remove x) d
            = mkRun (Returned tt)
                (mkStorage (delete x (files d)) (dirs d)) [Remove x])
      as Hstep.
    { unfold invoke, Py.remove. by rewrite Ha. }
    cbv zeta. cbn [for_each].
    rewrite (bind_returned _ _ d tt) by (by rewrite Hstep).
    rewrite Hstep. cbn [result final trace].
    specialize (IH (mkStorage (delete x (files d)) (dirs d))).
    destruct IH as (Hres & Hdirs & Hfiles).
    { intros y Hy. simpl. rewrite lookup_delete_ne by (by intros ->).
      apply H. by right. }
    split; [done|]. split; [done|]. intros p. rewrite Hfiles. simpl.
    destruct (decide (p = x)) as [->|Hne].
    + rewrite decide_False by done. rewrite decide_True by left.
      apply lookup_delete_eq.
    + rewrite lookup_delete_ne by done.
      destruct (decide (p ∈ l)).
      * by rewrite decide_True by by right.
      * rewrite decide_False; [done|]. by intros [?|?]%elem_of_cons.
Qed.


End ValidityFilter.

(** ** File names *)

Module PathFacts.

Lemma append_nil b : "" +:+ b = b.
Proof. done. Qed.

Lemma append_cons c a b : String c a +:+ b = String c (a +:+ b).
Proof. done. Qed.

Lemma has_sep_app a b : has_sep (a +:+ b) = has_sep a || has_sep b.
Proof.
  induction a as [|c a IH]; rewrite ?append_nil, ?append_cons; simpl;
    [done|].
  by rewrite IH, orb_assoc.
Qed.

Lemma basename_no_sep p : has_sep (basename p) = false.
Proof.
  induction p as [|c r IH]; simpl; [done|].
  destruct (has_sep r) eqn:Hr; [done|].
  destruct (is_sep c) eqn:Hc; simpl; [done|]. by rewrite Hc, Hr.
Qed.

Lemma no_sep_startswith x : has_sep x = false -> startswith_sep x = false.
Proof. destruct x; simpl; [done|]. by intros [? _]%orb_false_elim. Qed.

Lemma basename_id x : has_sep x = false -> basename x = x.
Proof.
  destruct x as [|c r]; simpl; [done|].
  intros [Hc Hr]%orb_false_elim. by rewrite Hr, Hc.
Qed.

(** What follows the last separator. *)
Lemma basename_after_sep a x :
  has_sep x = false -> basename (a +:+ String "/" x) = x.
Proof.
  intros Hx. induction a as [|c a IH];
    rewrite ?append_nil, ?append_cons; simpl.
  - by rewrite Hx.
  - rewrite has_sep_app. simpl. by rewrite orb_true_r.
Qed.

Lemma endswith_sep_split a :
  endswith_sep a = true -> exists a0, a = a0 +:+ "/".
Proof.
  induction a as [|c a IH]; simpl; [done|].
  destruct a as [|c' a'].
  - unfold is_sep. intros ->%bool_decide_eq_true. by exists "".
  - intros H. destruct (IH H) as [a0 Ha0]. exists (String c a0).
    by rewrite append_cons, <- Ha0.
Qed.

Lemma append_assoc a b c : (a +:+ b) +:+ c = a +:+ (b +:+ c).
Proof.
  induction a as [|x a IH]; rewrite ?append_nil, ?append_cons; [done|].
  by rewrite IH.
Qed.

Lemma append_inj_r a x y : a +:+ x = a +:+ y -> x = y.
Proof.
  induction a as [|c a IH]; rewrite ?append_nil, ?append_cons; [done|].
  intros [=]. auto.
Qed.

(** Joining a directory and a plain file name: the directory is a
    prefix that depends on the directory alone. *)
Lemma join_no_sep a x :
  has_sep x = false ->
  join a x = (if bool_decide (a = "") || endswith_sep a
              then a else a +:+ "/") +:+ x.
Proof.
  intros Hx. unfold join. rewrite (no_sep_startswith _ Hx).
  destruct (bool_decide (a = "") || endswith_sep a); [done|].
  by rewrite append_assoc.
Qed.

Lemma join_inj a x y :
  has_sep x = false -> has_sep y = false -> join a x = join a y -> x = y.
Proof.
  intros Hx Hy. rewrite !join_no_sep by done. apply append_inj_r.
Qed.

(** A file put into a directory under the name of [b] has the name of
    [b]. *)
Lemma basename_join a b : basename (join a (basename b)) = basename b.
Proof.
  pose proof (basename_no_sep b) as Hx.
  rewrite join_no_sep by done.
  destruct (bool_decide (a = "")) eqn:Ha; simpl.
  - apply bool_decide_eq_true in Ha as ->. rewrite append_nil.
    by apply basename_id.
  - destruct (endswith_sep a) eqn:He; cbn [orb].
    + destruct (endswith_sep_split a He) as [a0 ->].
      rewrite append_assoc. by apply basename_after_sep.
    + rewrite append_assoc. by apply basename_after_sep.
Qed.

End PathFacts.

(** ** Debug snapshots *)

Section Snapshots.

Context {Coord Date Scene : Type}.
Variable C : @Collaborators Coord Date Scene.

Abbreviation Call := (@Call Coord Date Scene).
Abbreviation M := (@M Coord Date Scene).

Import PathFacts.

Lemma copy_run b nm d a :
  nm ∈ dirs d -> files d !! b = Some a -> join nm (basename b) <> b ->
  invoke (ShutilCopy b nm : Call) (Py.copy b nm) d
  = mkRun (Returned tt)
      (mkStorage (<[join nm (basename b) := a]> (files d)) (dirs d))
      [ShutilCopy b nm].
Proof.
  intros Hnm Ha Hne. unfold invoke, Py.copy, Py.copy_target.
  rewrite Ha. rewrite (bool_decide_eq_true_2 _ Hnm).
  by rewrite (bool_decide_eq_false_2 _ Hne).
Qed.

(** Copying files that are there, of distinct names, none of which is
    itself in the directory: each copy holds the content of its source
    and nothing else changes. *)
Lemma copy_all_run nm l d :
  nm ∈ dirs d ->
  (forall b, b ∈ l -> is_Some (files d !! b)) ->
  NoDup (map basename l) ->
  (forall b b', b ∈ l -> b' ∈ l -> join nm (basename b) <> b') ->
  let r := for_each l (fun b => invoke (ShutilCopy b nm : Call)
                                  (Py.copy b nm)) d in
  result r = Returned tt /\ dirs (final r) = dirs d /\
  (forall b, b ∈ l ->
     files (final r) !! join nm (basename b) = files d !! b) /\
  (forall p, (forall b, b ∈ l -> p <> join nm (basename b)) ->
     files (final r) !! p = files d !! p).
Proof.
  revert d. induction l as [|b l IH]; intros d Hnm Hex Hnd Hout.
  - simpl. repeat split; try done. intros b Hb. by apply elem_of_nil in Hb.
  - destruct (Hex b) as [a Ha]; [by left|].
    pose proof (copy_run b nm d a Hnm Ha (Hout b b ltac:(left) ltac:(left)))
      as Hstep.
    cbv zeta. cbn [for_each].
    rewrite (bind_returned _ _ d tt) by (by rewrite Hstep).
    rewrite Hstep. cbn [result final trace].
    apply NoDup_cons in Hnd as [Hb Hnd].
    set (d' := mkStorage (<[join nm (basename b) := a]> (files d)) (dirs d)).
    destruct (IH d') as (Hres & Hdirs & Hcopies & Hrest); try done.
    { intros b' Hb'. simpl.
      rewrite lookup_insert_ne by (apply Hout; [left|by right]).
      apply Hex. by right. }
    { intros b1 b2 H1 H2. apply Hout; by right. }
    assert (forall b', b' ∈ l ->
              join nm (basename b) <> join nm (basename b')) as Hfresh.
    { intros b' Hb' Heq. apply Hb.
      apply join_inj in Heq; [|apply basename_no_sep..].
      rewrite Heq. apply list_elem_of_fmap. by exists b'. }
    split; [done|]. split; [done|]. split.
    + intros b' [->|Hb']%elem_of_cons.
      * rewrite Hrest by (intros b' Hb'; by apply Hfresh).
        simpl. by rewrite lookup_insert_eq.
      * rewrite Hcopies by done. simpl.
        apply lookup_insert_ne. apply Hout; [left|by right].
    + intros p Hp. rewrite Hrest.
      * simpl. apply lookup_insert_ne. intros Heq.
        by apply (Hp b ltac:(left)).
      * intros b' Hb'. apply Hp. by right.
Qed.

(** C5, as the code has it. With [debug], the checkpoint before
    registration is not a copy: for each artifact of the time series
    the trim collaborator is asked to write, in [no_registration] and
    under the artifact's file name, the artifact cut to the target size
    (the working size less the margin). The checkpoint before
    equalization is a copy: when the artifacts are files with distinct
    names, none of them inside [no_midway], that directory holds
    afterwards the content each artifact had, under its name, and the
    artifacts are as they were. *)
Theorem snapshot_contents lon lat w h out_dir crops d :
  (forall b, b ∈ concat crops -> is_Some (files d !! b)) ->
  NoDup (map basename (concat crops)) ->
  (forall b b', b ∈ concat crops -> b' ∈ concat crops ->
     join (join out_dir "no_midway") (basename b) <> b') ->
  (forall d' u,
     result (snapshot_before_registration C lon lat (w + 100) (h + 100)
               out_dir crops d') = Returned u ->
     trace (snapshot_before_registration C lon lat (w + 100) (h + 100)
              out_dir crops d')
     = MkdirP (join out_dir "no_registration")
       :: map (fun b =>
                 CropGeoreferenced
                   (join (join out_dir "no_registration") (basename b))
                   b lon lat w h)
            (concat crops)) /\
  (forall dir b, basename (join dir (basename b)) = basename b) /\
  let r := snapshot_before_equalization (Coord:=Coord) (Date:=Date)
             (Scene:=Scene) out_dir crops d in
  result r = Returned tt /\
  holds_copies (join out_dir "no_midway") (concat crops) d (final r) /\
  (forall b, b ∈ concat crops -> files (final r) !! b = files d !! b).
Proof.
  intros Hex Hnd Hout. split; [|split; [apply basename_join|]].
  - intros d' u H. unfold snapshot_before_registration in *.
    apply bind_inv in H as (? & _ & H & _ & ->). simpl. f_equal.
    erewrite for_each_artifact_invoke_trace by apply H.
    apply map_ext. intros b. f_equal; lia.
  - cbv zeta. unfold snapshot_before_equalization.
    rewrite (bind_returned _ _ d tt) by done.
    cbn [invoke result final trace fst snd mkdir_p].
    rewrite for_each_artifact_concat.
    set (d' := mkStorage (files d) ({[join out_dir "no_midway"]} ∪ dirs d)).
    destruct (copy_all_run (join out_dir "no_midway") (concat crops) d')
      as (Hres & _ & Hcopies & Hrest); try done.
    { simpl. set_solver. }
    split; [done|]. split.
    + intros b Hb. split; [by apply Hex|]. by rewrite Hcopies.
    + intros b Hb. rewrite Hrest; [done|].
      intros b' Hb' ->. by apply (Hout b' _ Hb' Hb).
Qed.

End Snapshots.

(** ** Snapshots do not interfere *)

Section Interference.

Context {Coord Date Scene : Type}.
Variable C : @Collaborators Coord Date Scene.
Variable out_dir : string.

Abbreviation Call := (@Call Coord Date Scene).
Abbreviation M := (@M Coord Date Scene).
Abbreviation in_snapshot := (in_snapshot out_dir).
Abbreviation outside := (outside out_dir).
Abbreviation same_outside := (same_outside out_dir).
Abbreviation blind := (blind out_dir).
Abbreviation blind_run := (blind_run out_dir).
Abbreviation simulates := (simulates out_dir).
Abbreviation agrees_unless_aborted := (agrees_unless_aborted out_dir).
Abbreviation same_working_artifacts := (same_working_artifacts out_dir).
Abbreviation snapshot_blind := (snapshot_blind C out_dir).

Lemma same_outside_refl d : same_outside d d.
Proof. by split. Qed.

Lemma same_outside_sym d1 d2 : same_outside d1 d2 -> same_outside d2 d1.
Proof.
  intros [Hf Hd]. split; [intros p Hp; by rewrite Hf|].
  intros q H1 H2. by rewrite Hd.
Qed.

Lemma same_outside_trans d1 d2 d3 :
  same_outside d1 d2 -> same_outside d2 d3 -> same_outside d1 d3.
Proof.
  intros [Hf Hd] [Hf' Hd']. split.
  - intros p Hp. by rewrite Hf, Hf'.
  - intros q H1 H2. by rewrite Hd, Hd'.
Qed.

Lemma blind_run_ret {A} (a : A) : blind_run (ret a : M A).
Proof. by intros d1 d2 H. Qed.

Lemma blind_run_invoke {A} (c : Call) (f : Storage -> outcome A * Storage) :
  blind f -> blind_run (invoke c f).
Proof. intros Hf d1 d2 H. apply Hf, H. Qed.

Lemma blind_run_bind {A B} (m : M A) (k : A -> M B) :
  blind_run m -> (forall a, blind_run (k a)) -> blind_run (bind m k).
Proof.
  intros Hm Hk d1 d2 H. destruct (Hm d1 d2 H) as [Hr Hs].
  unfold bind. rewrite <- Hr.
  destruct (result (m d1)) as [a|e]; simpl; [|done].
  by apply Hk.
Qed.

Lemma blind_run_for_each {A} (l : list A) (body : A -> M unit) :
  (forall x, x ∈ l -> blind_run (body x)) -> blind_run (for_each l body).
Proof.
  induction l as [|x l IH]; intros H; simpl.
  - apply blind_run_ret.
  - apply blind_run_bind; [apply H; left|].
    intros _. apply IH. intros y Hy. apply H. by right.
Qed.

Lemma blind_run_simulates (m : M unit) : blind_run m -> simulates m m.
Proof.
  intros Hm d1 d0 u H Hr. destruct (Hm d1 d0 H) as [Hres Hs].
  split; [congruence|done].
Qed.

Lemma simulates_bind (m1 m0 k1 k0 : M unit) :
  simulates m1 m0 -> simulates k1 k0 ->
  simulates (m1 ;;; k1) (m0 ;;; k0).
Proof.
  intros Hm Hk d1 d0 u H Hr.
  apply bind_inv in Hr as (a & Hm1 & Hk1 & -> & _).
  destruct (Hm d1 d0 a H Hm1) as [Hm0 Hs].
  rewrite (bind_returned _ _ _ _ Hm0). simpl.
  by apply Hk.
Qed.

(** A loop whose steps change nothing outside the snapshots. *)
Lemma for_each_quiet {A} (I : Storage -> Prop) (l : list A)
    (body : A -> M unit) :
  (forall x d, I d ->
     same_outside (final (body x d)) d /\ I (final (body x d))) ->
  forall d, I d ->
    same_outside (final (for_each l body d)) d /\
    I (final (for_each l body d)).
Proof.
  intros Hbody. induction l as [|x l IH]; intros d Hd; simpl.
  - split; [apply same_outside_refl|done].
  - destruct (Hbody x d Hd) as [Hs HI]. unfold bind.
    destruct (result (body x d)); simpl; [|done].
    destruct (IH _ HI) as [Hs' HI']. split; [|done].
    by eapply same_outside_trans.
Qed.

Lemma for_each_artifact_quiet (I : Storage -> Prop) crops
    (body : string -> M unit) :
  (forall b d, I d ->
     same_outside (final (body b d)) d /\ I (final (body b d))) ->
  forall d, I d ->
    same_outside (final (for_each_artifact crops body d)) d /\
    I (final (for_each_artifact crops body d)).
Proof.
  intros Hbody d Hd. rewrite for_each_artifact_concat.
  by apply for_each_quiet.
Qed.

Lemma in_snapshot_registration b :
  in_snapshot (join (join out_dir "no_registration") (basename b)).
Proof. exists b. by left. Qed.

Lemma in_snapshot_midway b :
  in_snapshot (join (join out_dir "no_midway") (basename b)).
Proof. exists b. by right. Qed.

Lemma writes_only_quiet o f d :
  in_snapshot o -> writes_only o f -> same_outside (f d).2 d.
Proof.
  intros Ho Hf. destruct (Hf d) as [Hfiles Hdirs]. split.
  - intros p Hp. apply Hfiles. by intros ->.
  - intros q _ _. by rewrite Hdirs.
Qed.

Lemma mkdir_p_quiet p d :
  p = join out_dir "no_registration" \/ p = join out_dir "no_midway" ->
  same_outside (mkdir_p p d).2 d.
Proof.
  intros Hp. split; [done|]. intros q H1 H2. simpl.
  rewrite elem_of_union, elem_of_singleton. split; [|auto].
  intros [->|Hq]; [|done]. by destruct Hp.
Qed.

Lemma copy_quiet b d :
  join out_dir "no_midway" ∈ dirs d ->
  same_outside (Py.copy b (join out_dir "no_midway") d).2 d /\
  join out_dir "no_midway"
    ∈ dirs (Py.copy b (join out_dir "no_midway") d).2.
Proof.
  intros Hd. unfold Py.copy, Py.copy_target.
  rewrite (bool_decide_eq_true_2 _ Hd).
  destruct (files d !! b) as [a|]; [|by split; [apply same_outside_refl|]].
  case_bool_decide; [by split; [apply same_outside_refl|]|].
  simpl. split; [|done]. split; [|done].
  intros p Hp. simpl. apply lookup_insert_ne. intros <-.
  apply Hp, in_snapshot_midway.
Qed.

Variables lon lat : Coord.
Hypothesis HC : snapshot_blind lon lat.

Lemma download_result img bands w h crops0 d crops :
  result (download C img bands lon lat w h out_dir crops0 d)
    = Returned crops ->
  crops = crops0 \/
  exists l,
    (get_crops_from_kayrros_api C img bands lon lat w h out_dir d).1
      = Returned l /\ crops = crops0 ++ [l].
Proof.
  unfold download. intros H.
  apply bind_inv in H as (l & Hl & H & _).
  destruct l as [|x l]; [left; by injection H|].
  apply bind_inv in H as (ok & _ & H & _).
  destruct ok.
  - right. exists (x :: l). split; [done|]. by injection H.
  - apply bind_inv in H as (? & _ & H & _). left. by injection H.
Qed.

Lemma download_all_outside images bands w h crops0 d crops :
  Forall outside crops0 ->
  result (download_all C images bands lon lat w h out_dir crops0 d)
    = Returned crops ->
  Forall outside crops.
Proof.
  revert crops0 d. induction images as [|img rest IH];
    intros crops0 d H0 H; simpl in H.
  - by injection H as <-.
  - apply bind_inv in H as (crops1 & H1 & H & _).
    eapply IH; [|apply H].
    apply download_result in H1 as [->|(l & Hl & ->)]; [done|].
    apply Forall_app. split; [done|]. constructor; [|done].
    eapply acquired_outside; [apply HC|apply Hl].
Qed.

Lemma collect_outside bands w h register sd ed d crops :
  result (collect C lat lon bands w h register out_dir sd ed d)
    = Returned crops ->
  Forall outside crops.
Proof.
  unfold collect. intros H.
  apply bind_inv in H as (images & _ & H & _).
  eapply download_all_outside; [|apply H]. constructor.
Qed.

Lemma band_group_subset crops i x :
  x ∈ band_group crops i -> x ∈ concat crops.
Proof.
  induction crops as [|crop crops IH]; simpl; [done|].
  rewrite elem_of_app. case_bool_decide; [|by right; apply IH].
  destruct (crop !! i) as [y|] eqn:Hy; [|by right; apply IH].
  intros [->|Hx]%elem_of_cons; [left|right; by apply IH].
  by eapply list_elem_of_lookup_2.
Qed.

Lemma outside_concat crops : Forall outside crops -> outside (concat crops).
Proof.
  unfold outside. induction 1; simpl; [done|]. by apply Forall_app.
Qed.

Lemma band_group_outside crops i :
  Forall outside crops -> outside (band_group crops i).
Proof.
  intros H%outside_concat. unfold outside in *.
  rewrite Forall_forall in *. intros x Hx. eapply H, band_group_subset, Hx.
Qed.

Lemma snapshot_before_registration_quiet w h crops d :
  same_outside
    (final (snapshot_before_registration C lon lat w h out_dir crops d)) d.
Proof.
  unfold snapshot_before_registration.
  rewrite (bind_returned _ _ d tt) by done. cbn [final].
  apply same_outside_trans
    with (mkdir_p (join out_dir "no_registration") d).2;
    [|apply mkdir_p_quiet; by left].
  apply (for_each_artifact_quiet (fun _ => True)); [|done].
  intros b d' _. split; [|done].
  apply (writes_only_quiet _ _ d' (in_snapshot_registration b)).
  apply HC, in_snapshot_registration.
Qed.

Lemma snapshot_before_equalization_quiet crops d :
  same_outside
    (final (snapshot_before_equalization (Coord:=Coord) (Date:=Date)
              (Scene:=Scene) out_dir crops d)) d.
Proof.
  unfold snapshot_before_equalization.
  rewrite (bind_returned _ _ d tt) by done. cbn [final].
  apply same_outside_trans with (mkdir_p (join out_dir "no_midway") d).2;
    [|apply mkdir_p_quiet; by right].
  apply (for_each_artifact_quiet
           (fun d => join out_dir "no_midway" ∈ dirs d)).
  - intros b d' Hd'. by apply copy_quiet.
  - simpl. set_solver.
Qed.

Lemma quiet_simulates_ret (m : M unit) :
  (forall d, same_outside (final (m d)) d) -> simulates m (ret tt).
Proof.
  intros Hm d1 d0 u H Hr. destruct u. split; [done|]. simpl.
  eapply same_outside_trans; [apply Hm|done].
Qed.

Lemma register_images_simulates w h crops :
  Forall outside crops ->
  simulates (register_images C lon lat w h out_dir true crops)
            (register_images C lon lat w h out_dir false crops).
Proof.
  intros Hout. unfold register_images. apply simulates_bind.
  - apply quiet_simulates_ret, snapshot_before_registration_quiet.
  - apply blind_run_simulates, blind_run_bind.
    + apply blind_run_invoke, HC, Hout.
    + intros _. apply blind_run_for_each. intros crop Hcrop.
      apply blind_run_for_each. intros b Hb.
      apply blind_run_invoke, HC.
      rewrite Forall_forall in Hout. specialize (Hout crop Hcrop).
      unfold outside in Hout. rewrite Forall_forall in Hout. by apply Hout.
Qed.

Lemma equalize_images_simulates bands crops :
  Forall outside crops ->
  simulates (equalize_images C bands out_dir true crops)
            (equalize_images C bands out_dir false crops).
Proof.
  intros Hout. unfold equalize_images. apply simulates_bind.
  - apply quiet_simulates_ret, snapshot_before_equalization_quiet.
  - apply blind_run_simulates, blind_run_for_each. intros i _.
    apply blind_run_invoke, HC. by apply band_group_outside.
Qed.

(** Two runs from the same storage that differ in [debug] alone, when
    the run with [debug] returns: the run without returns as well; the
    two final storages hold the same files outside the snapshots; and
    both runs made the same calls, with the same arguments, except for
    the snapshot calls. *)
Lemma debug_does_not_interfere bands w h register equalize sd ed d u :
  let r1 := get_time_series C lat lon bands w h register equalize out_dir
              sd ed true d in
  let r0 := get_time_series C lat lon bands w h register equalize out_dir
              sd ed false d in
  result r1 = Returned u ->
  result r0 = Returned u /\
  same_outside (final r1) (final r0) /\
  (forall p, ~ in_snapshot p ->
     files (final r1) !! p = files (final r0) !! p) /\
  exists crops,
    Forall outside crops /\
    let calls debug :=
      trace (collect C lat lon bands w h register out_dir sd ed d)
      ++ (if register
          then registration_calls lon lat w h out_dir debug crops else [])
      ++ (if equalize
          then equalization_calls bands out_dir debug crops else []) in
    trace r1 = calls true /\ trace r0 = calls false.
Proof.
  intros r1 r0 H1.
  assert (result r0 = Returned u /\ same_outside (final r1) (final r0))
    as [H0 Hs].
  { subst r1 r0. unfold get_time_series in *.
    apply bind_inv in H1 as (crops & Hc & H1 & -> & _).
    rewrite (bind_returned _ _ _ _ Hc). cbn [result final].
    pose proof (collect_outside _ _ _ _ _ _ _ _ Hc) as Hout.
    revert H1. apply simulates_bind; [| |apply same_outside_refl].
    - destruct register; [|apply blind_run_simulates, blind_run_ret].
      by apply register_images_simulates.
    - destruct equalize; [|apply blind_run_simulates, blind_run_ret].
      by apply equalize_images_simulates. }
  split; [done|]. split; [done|]. split; [apply Hs|].
  subst r1 r0.
  destruct (get_time_series_trace _ _ _ _ _ _ _ _ _ _ _ _ _ _ H1)
    as (crops & Hc & Ht1).
  destruct (get_time_series_trace _ _ _ _ _ _ _ _ _ _ _ _ _ _ H0)
    as (crops' & Hc' & Ht0).
  rewrite Hc in Hc'. injection Hc' as <-.
  exists crops. split; [by eapply collect_outside|]. by split.
Qed.

(** *** Runs that raise *)

Lemma aborted_bind_l {A B} (m : M A) (k : A -> M B) d :
  aborted_by_snapshot (m d) -> aborted_by_snapshot (bind m k d).
Proof.
  intros [[e He] Ht]. rewrite (bind_raised _ _ _ _ He).
  split; [by exists e|done].
Qed.

Lemma aborted_bind_r {A B} (m : M A) (k : A -> M B) d a :
  result (m d) = Returned a ->
  aborted_by_snapshot (k a (final (m d))) ->
  aborted_by_snapshot (bind m k d).
Proof.
  intros Hm [[e He] (t & c & Ht & Hc)]. rewrite (bind_returned _ _ _ _ Hm).
  split; [by exists e|]. exists (trace (m d) ++ t), c. cbn [trace].
  split; [|done]. by rewrite Ht, app_assoc.
Qed.

Lemma blind_run_agrees (m : M unit) :
  blind_run m -> agrees_unless_aborted m m.
Proof. intros Hm d1 d0 H. right. by apply Hm. Qed.

Lemma agrees_bind (m1 m0 k1 k0 : M unit) :
  agrees_unless_aborted m1 m0 -> agrees_unless_aborted k1 k0 ->
  agrees_unless_aborted (m1 ;;; k1) (m0 ;;; k0).
Proof.
  intros Hm Hk d1 d0 H.
  destruct (Hm d1 d0 H) as [Ha|[Hr Hs]]; [left; by apply aborted_bind_l|].
  destruct (result (m1 d1)) as [a|e] eqn:H1; symmetry in Hr.
  - destruct (Hk _ _ Hs) as [Ha|[Hr' Hs']].
    + left. by eapply aborted_bind_r.
    + right.
      by rewrite (bind_returned _ _ _ _ H1), (bind_returned _ _ _ _ Hr).
  - right. by rewrite (bind_raised _ _ _ _ H1), (bind_raised _ _ _ _ Hr).
Qed.

(** A step that makes snapshot calls only, and at least one, and changes
    nothing outside the snapshots: either it returns, and all is as if
    it had not been there, or one of its calls ends the run. *)
Lemma quiet_agrees_ret (m : M unit) :
  (forall d, same_outside (final (m d)) d) ->
  emits_only (fun c : Call => is_snapshot c = true) m ->
  (forall d, trace (m d) <> []) ->
  agrees_unless_aborted m (ret tt).
Proof.
  intros Hq He Hne d1 d0 H.
  destruct (result (m d1)) as [[]|e] eqn:Hr.
  - right. split; [done|]. simpl.
    eapply same_outside_trans; [apply Hq|done].
  - left. split; [by exists e|].
    destruct (exists_last (Hne d1)) as (t & c & Ht). exists t, c.
    split; [done|]. pose proof (He d1) as HF. rewrite Ht in HF.
    apply Forall_app in HF as [_ HF]. by inversion HF.
Qed.

Lemma invoke_first_nonempty {A B} (c : Call)
    (f : Storage -> outcome A * Storage) (k : A -> M B) d :
  trace (bind (invoke c f) k d) <> [].
Proof.
  destruct (bind_trace_prefix (invoke c f) k d) as [t Ht]. by rewrite Ht.
Qed.

Lemma snapshot_before_registration_emits w h crops :
  Forall outside crops ->
  emits_only (fun c : Call => is_snapshot c = true)
    (snapshot_before_registration C lon lat w h out_dir crops).
Proof.
  intros Hout. unfold snapshot_before_registration, for_each_artifact.
  apply emits_only_bind; [by apply emits_only_invoke|]. intros _.
  apply emits_only_for_each. intros crop Hcrop.
  apply emits_only_for_each. intros b Hb.
  apply emits_only_invoke. simpl. apply negb_true_iff, String.eqb_neq.
  intros Heq. rewrite Forall_forall in Hout. specialize (Hout crop Hcrop).
  unfold outside in Hout. rewrite Forall_forall in Hout.
  apply (Hout b Hb). rewrite <- Heq. apply in_snapshot_registration.
Qed.

Lemma snapshot_before_equalization_emits crops :
  emits_only (fun c : Call => is_snapshot c = true)
    (snapshot_before_equalization (Coord:=Coord) (Date:=Date)
       (Scene:=Scene) out_dir crops).
Proof.
  unfold snapshot_before_equalization.
  apply emits_only_bind; [by apply emits_only_invoke|]. intros _.
  apply emits_only_for_each_artifact. intros b. by apply emits_only_invoke.
Qed.

Lemma registration_and_trims_blind w h crops :
  Forall outside crops ->
  blind_run
    (invoke (RegistrationMain crops crops true : Call)
       (registration_main C crops crops true) ;;;
     for_each_artifact crops (fun b =>
       invoke (CropGeoreferenced b b lon lat (w - 100) (h - 100))
         (crop_georeferenced_image C b b lon lat (w - 100) (h - 100)))).
Proof.
  intros Hout. apply blind_run_bind.
  - apply blind_run_invoke, HC, Hout.
  - intros _. apply blind_run_for_each. intros crop Hcrop.
    apply blind_run_for_each. intros b Hb.
    apply blind_run_invoke, HC.
    rewrite Forall_forall in Hout. specialize (Hout crop Hcrop).
    unfold outside in Hout. rewrite Forall_forall in Hout. by apply Hout.
Qed.

Lemma register_images_agrees w h crops :
  Forall outside crops ->
  agrees_unless_aborted (register_images C lon lat w h out_dir true crops)
                        (register_images C lon lat w h out_dir false crops).
Proof.
  intros Hout. unfold register_images. apply agrees_bind.
  - apply quiet_agrees_ret.
    + apply snapshot_before_registration_quiet.
    + by apply snapshot_before_registration_emits.
    + intros d. apply invoke_first_nonempty.
  - by apply blind_run_agrees, registration_and_trims_blind.
Qed.

Lemma equalize_images_agrees bands crops :
  Forall outside crops ->
  agrees_unless_aborted (equalize_images C bands out_dir true crops)
                        (equalize_images C bands out_dir false crops).
Proof.
  intros Hout. unfold equalize_images. apply agrees_bind.
  - apply quiet_agrees_ret.
    + apply snapshot_before_equalization_quiet.
    + apply snapshot_before_equalization_emits.
    + intros d. apply invoke_first_nonempty.
  - apply blind_run_agrees, blind_run_for_each. intros i _.
    apply blind_run_invoke, HC. by apply band_group_outside.
Qed.

(** C7, as the code has it. Two runs from the same storage that differ
    in [debug] alone, with collaborators that do not put artifacts among
    the snapshots and do not look at them. For every input:
    - either a snapshot call raises and ends the run with [debug], or
      the two runs end with the same result, returned or raised, and
      their final storages hold the same files outside the snapshots,
      so the same working artifacts;
    - when the run with [debug] returns, the run without returns as
      well, with the same working artifacts, and both runs made the
      same calls with the same arguments, the snapshot calls apart:
      registration and equalization had the same inputs;
    - the two snapshot steps, whatever the storage and whether they
      return or raise, leave every file outside the snapshots as it
      was: they copy, and neither move nor modify. *)
Theorem debug_changes_nothing_unless_aborted bands w h register equalize
    sd ed d :
  let r1 := get_time_series C lat lon bands w h register equalize out_dir
              sd ed true d in
  let r0 := get_time_series C lat lon bands w h register equalize out_dir
              sd ed false d in
  (aborted_by_snapshot r1 \/
   (result r1 = result r0 /\
    same_outside (final r1) (final r0) /\
    same_working_artifacts r1 r0)) /\
  (forall u, result r1 = Returned u ->
     result r0 = Returned u /\
     same_working_artifacts r1 r0 /\
     exists crops,
       Forall outside crops /\
       let calls debug :=
         trace (collect C lat lon bands w h register out_dir sd ed d)
         ++ (if register
             then registration_calls lon lat w h out_dir debug crops
             else [])
         ++ (if equalize
             then equalization_calls bands out_dir debug crops else []) in
       trace r1 = calls true /\ trace r0 = calls false) /\
  (forall w' h' crops d',
     same_outside
       (final (snapshot_before_registration C lon lat w' h' out_dir crops
                 d')) d') /\
  (forall crops d',
     same_outside
       (final (snapshot_before_equalization (Coord:=Coord) (Date:=Date)
                 (Scene:=Scene) out_dir crops d')) d').
Proof.
  intros r1 r0. split; [|split; [|split]].
  - subst r1 r0. unfold get_time_series.
    destruct (result (collect C lat lon bands w h register out_dir sd ed d))
      as [crops|e] eqn:Hc.
    + pose proof (collect_outside _ _ _ _ _ _ _ _ Hc) as Hout.
      assert (agrees_unless_aborted
                ((if register
                  then register_images C lon lat (working_size register w)
                         (working_size register h) out_dir true crops
                  else ret tt) ;;;
                 (if equalize
                  then equalize_images C bands out_dir true crops
                  else ret tt))
                ((if register
                  then register_images C lon lat (working_size register w)
                         (working_size register h) out_dir false crops
                  else ret tt) ;;;
                 (if equalize
                  then equalize_images C bands out_dir false crops
                  else ret tt))) as Hag.
      { apply agrees_bind.
        - destruct register; [|apply blind_run_agrees, blind_run_ret].
          by apply register_images_agrees.
        - destruct equalize; [|apply blind_run_agrees, blind_run_ret].
          by apply equalize_images_agrees. }
      destruct (Hag _ _ (same_outside_refl
                           (final (collect C lat lon bands w h register
                                     out_dir sd ed d))))
        as [Ha|[Hr Hs]].
      * left. by eapply aborted_bind_r.
      * right. rewrite !(bind_returned _ _ _ _ Hc).
        split; [done|]. split; [done|].
        intros p Hp. by apply (proj1 Hs).
    + right. rewrite !(bind_raised _ _ _ _ Hc).
      split; [done|]. split; [apply same_outside_refl|by intros p Hp].
  - intros u H1.
    destruct (debug_does_not_interfere bands w h register equalize sd ed d
                u H1) as (H0 & _ & Hf & Hcalls).
    split; [done|]. split; [done|]. exact Hcalls.
  - intros w' h' crops d'. apply snapshot_before_registration_quiet.
  - intros crops d'. apply snapshot_before_equalization_quiet.
Qed.

End Interference.

(** ** The sample world meets the assumptions *)

Module SampleFacts.

Import PathFacts Sample.

(** With the current directory as output directory, the snapshots are
    the paths under [no_registration/] and [no_midway/]. *)
Lemma in_snapshot_here p :
  in_snapshot "" p ->
  exists x, p = "no_registration/" +:+ x \/ p = "no_midway/" +:+ x.
Proof.
  intros [b [->| ->]]; exists (basename b); [left|right];
    by rewrite join_no_sep by apply basename_no_sep.
Qed.

Lemma outside_here p : starts_with_n p = false -> ~ in_snapshot "" p.
Proof.
  intros Hp [x [-> | ->]]%in_snapshot_here; by rewrite append_cons in Hp.
Qed.

Lemma names_outside img (bands : list string) :
  outside "" (map (join "") (firstn (length bands) (Sample.names img))).
Proof.
  unfold outside. apply List.Forall_map, Forall_take.
  destruct img; repeat constructor; by apply outside_here.
Qed.

Lemma alter_all_same f l (m1 m2 : gmap string Artifact) p :
  m1 !! p = m2 !! p ->
  Sample.alter_all f l m1 !! p = Sample.alter_all f l m2 !! p.
Proof.
  intros H. induction l as [|x l IH]; simpl; [done|].
  rewrite !lookup_alter. case_decide; [subst|done]. by rewrite IH.
Qed.

Lemma alter_all_blind f l :
  blind "" (fun d => (Returned tt,
                      mkStorage (Sample.alter_all f l (files d)) (dirs d))).
Proof.
  intros d1 d2 [Hf Hd]. split; [done|]. split; [|done].
  intros p Hp. simpl. by apply alter_all_same, Hf.
Qed.

Lemma trim_in_place_blind b lon lat w h :
  ~ in_snapshot "" b -> blind "" (Sample.trim b b lon lat w h).
Proof.
  intros Hb d1 d2 [Hf Hd]. unfold Sample.trim. rewrite (Hf b Hb).
  destruct (files d2 !! b) as [a|]; [|by split].
  split; [done|]. split; [|done]. intros p Hp. simpl.
  rewrite !lookup_insert. case_decide; [done|by apply Hf].
Qed.

Lemma trim_writes_only o b lon lat w h :
  writes_only o (Sample.trim o b lon lat w h).
Proof.
  intros d. unfold Sample.trim.
  destruct (files d !! b) as [a|]; [|done].
  split; [|done]. intros p Hp. simpl. by apply lookup_insert_ne.
Qed.

Lemma world_snapshot_blind catalog lon lat :
  snapshot_blind (Sample.world catalog) "" lon lat.
Proof.
  split; simpl.
  - intros img bands w h d l [= <-]. apply names_outside.
  - intros crops _. apply alter_all_blind.
  - intros b w h. apply trim_in_place_blind.
  - intros o b w h _. apply trim_writes_only.
  - intros group _. apply alter_all_blind.
Qed.

(** The world whose trim writes in place only meets them as well. *)
Lemma trim_in_place_only_same b lon lat w h d :
  SampleMore.trim_in_place_only b b lon lat w h d
  = Sample.trim b b lon lat w h d.
Proof. unfold SampleMore.trim_in_place_only. by rewrite String.eqb_refl. Qed.

Lemma trim_in_place_only_writes_only o b lon lat w h :
  writes_only o (SampleMore.trim_in_place_only o b lon lat w h).
Proof.
  unfold SampleMore.trim_in_place_only.
  destruct (String.eqb o b); [apply trim_writes_only|done].
Qed.

Lemma world_in_place_only_snapshot_blind lon lat :
  snapshot_blind SampleMore.world_in_place_only "" lon lat.
Proof.
  split; simpl.
  - intros img bands w h d l [= <-]. apply names_outside.
  - intros crops _. apply alter_all_blind.
  - intros b w h Hb d1 d2 H. rewrite !trim_in_place_only_same.
    by apply trim_in_place_blind.
  - intros o b w h _. apply trim_in_place_only_writes_only.
  - intros group _. apply alter_all_blind.
Qed.

End SampleFacts.

(** ** Runs of the sample world *)

Module Scenarios.

Import Sample.

Abbreviation W := (world catalog).
Abbreviation Call := (@Call Z Z scene).

(** Scenario B of the specification: the crops of the second scene are
    blank, the time series keeps the first and the third. *)
Example three_scenes :
  result (collect W 0 0 bands234 200 200 false "" None None empty_disk)
  = Returned [["a2.tif"; "a3.tif"; "a4.tif"]; ["c2.tif"; "c3.tif"]]%string.
Proof. by vm_compute. Qed.

Example one_scene_debug_trace :
  trace (run_one true false true)
  = [ListImages 0 0 None None;
     GetCrops Clear ["2"%string] 0 0 300 300 "";
     Imread "a2.tif";
     MkdirP "no_registration";
     CropGeoreferenced "no_registration/a2.tif" "a2.tif" 0 0 200 200;
     RegistrationMain [["a2.tif"%string]] [["a2.tif"%string]] true;
     CropGeoreferenced "a2.tif" "a2.tif" 0 0 200 200].
Proof. by vm_compute. Qed.

Example no_scene_trace :
  trace (run_none true true false)
  = [ListImages 0 0 None None;
     RegistrationMain [] [] true;
     MidwayMain [] ""; MidwayMain [] ""; MidwayMain [] ""].
Proof. by vm_compute. Qed.



Lemma equalization_band_groups_witness :
  exists crops,
    result (collect W 0 0 bands234 200 200 true "" None None empty_disk)
      = Returned crops /\
    List.filter is_midway (trace (run true true true))
      = map (fun i => MidwayMain (band_group crops i) "")
            (seq 0 (length bands234)) /\
    forall i,
      band_group crops i = artifacts_at crops i /\
      length (band_group crops i) =
      length (filter (fun crop : list string => (i < length crop)%nat)
                crops).
Proof.
  apply (equalization_band_groups W 0 0 bands234 200 200 true ""
           None None true empty_disk tt).
  by vm_compute.
Defined.


Lemma registration_once_witness :
  exists crops,
    result (collect W 0 0 bands234 200 200 true "" None None empty_disk)
      = Returned crops /\
    trace (run true true true)
      = trace (collect W 0 0 bands234 200 200 true "" None None empty_disk)
        ++ (MkdirP (join "" "no_registration")
            :: snapshot_trims 0 0 200 200 "" crops)
        ++ RegistrationMain crops crops true
        :: margin_trims 0 0 200 200 crops
        ++ equalization_calls bands234 "" true crops /\
    Forall (fun c : Call => is_collecting c = true)
      (trace (collect W 0 0 bands234 200 200 true "" None None
                empty_disk)) /\
    Forall (fun c : Call => is_collecting c = false)
      (equalization_calls bands234 "" true crops) /\
    List.filter is_registration (trace (run true true true))
      = [RegistrationMain crops crops true].
Proof.
  apply (registration_once W 0 0 bands234 200 200 true "" None None
           true empty_disk tt).
  by vm_compute.
Defined.

(** C8 as stated fails: with [debug] the trim collaborator is called,
    for the snapshot, before the registration collaborator. *)
Lemma trim_before_registration :
  ~ registration_before_any_trim (trace (run_one true false true)).
Proof.
  intros H. rewrite one_scene_debug_trace in H.
  specialize (H [ListImages 0 0 None None;
                 GetCrops Clear ["2"%string] 0 0 300 300 "";
                 Imread "a2.tif"; MkdirP "no_registration";
                 CropGeoreferenced "no_registration/a2.tif" "a2.tif"
                   0 0 200 200]
                _ _ _ _ eq_refl).
  do 4 apply Forall_cons in H as [_ H].
  by apply Forall_cons in H as [H _].
Qed.

(** C6 as stated fails: discovery finds nothing and yet, with
    [register] and [equalize], the registration and the equalization
    collaborators are called. *)
Lemma calls_on_empty_discovery :
  list_images (world []) 0 0 None None empty_disk
    = (Returned [], empty_disk) /\
  ~ no_collaborator_call (trace (run_none true true false)).
Proof.
  split; [done|]. intros H. rewrite no_scene_trace in H.
  apply Forall_cons in H as [_ H]. apply Forall_cons in H as [H _].
  by destruct H as (_ & H & _).
Qed.

Lemma empty_discovery_witness :
  list_images (world []) 0 0 None None empty_disk
    = (Returned [], empty_disk) /\
  result (run_none false false true) = Returned tt /\
  final (run_none false false true) = empty_disk /\
  trace (run_none false false true) = [ListImages 0 0 None None].
Proof.
  split; [done|].
  apply (empty_discovery (world []) 0 0 bands234 200 200 false false ""
           None None true empty_disk empty_disk); done.
Defined.

Example artifact_before_registration :
  files one_collected !! "a2.tif"
  = Some (mkArtifact [1; 2; 3; 4; 5; 6] 300 300).
Proof. by vm_compute. Qed.

Example snapshot_of_artifact :
  files (final (run_one true false true)) !! "no_registration/a2.tif"
  = Some (mkArtifact [2; 3; 4; 5] 200 200).
Proof. by vm_compute. Qed.

(** C5 as stated fails: the snapshot made before registration is the
    artifact cut to the target size, not a copy of its content. *)
Lemma registration_snapshot_not_a_copy :
  result (run_one true false true) = Returned tt /\
  ~ holds_copies (join "" "no_registration") ["a2.tif"%string]
      one_collected (final (run_one true false true)).
Proof.
  split; [by vm_compute|]. intros H.
  destruct (H "a2.tif") as [_ Heq]; [by left|].
  change (join (join "" "no_registration") (basename "a2.tif"))
    with "no_registration/a2.tif" in Heq.
  rewrite snapshot_of_artifact, artifact_before_registration in Heq.
  discriminate.
Qed.

Lemma three_series_cases (P : string -> Prop) :
  P "a2.tif" -> P "a3.tif" -> P "a4.tif" -> P "c2.tif" -> P "c3.tif" ->
  forall b, b ∈ concat three_series -> P b.
Proof.
  intros ? ? ? ? ? b Hb. simpl in Hb.
  repeat (apply elem_of_cons in Hb as [->|Hb]); try done.
  by apply elem_of_nil in Hb.
Qed.

Lemma snapshot_contents_witness :
  let r := snapshot_before_equalization (Coord:=Z) (Date:=Z) (Scene:=scene)
             "" three_series three_collected in
  result r = Returned tt /\
  holds_copies (join "" "no_midway") (concat three_series)
    three_collected (final r) /\
  (forall b, b ∈ concat three_series ->
     files (final r) !! b = files three_collected !! b).
Proof.
  refine (proj2 (proj2 (snapshot_contents W 0 0 200 200 "" three_series
                          three_collected _ _ _))).
  - apply three_series_cases; by vm_compute; eexists.
  - apply (bool_decide_eq_true_1 _). by vm_compute.
  - intros b b' _ Hb' Heq. revert b' Hb' Heq.
    apply (three_series_cases
             (fun b' => join (join "" "no_midway") (basename b) <> b'));
      intros Heq;
      match type of Heq with
      | _ = ?p => apply (SampleFacts.outside_here p); [done|]
      end;
      rewrite <- Heq; apply in_snapshot_midway.
Defined.

(** The three scenes, registered and equalized, with and without
    [debug]: both runs return and leave the same working artifacts. *)
Lemma debug_changes_nothing_unless_aborted_witness :
  snapshot_blind W "" 0 0 /\
  result (run true true true) = Returned tt /\
  result (run true true false) = Returned tt /\
  same_working_artifacts "" (run true true true) (run true true false).
Proof.
  split; [apply SampleFacts.world_snapshot_blind|].
  split; [by vm_compute|].
  refine (let H := proj1 (proj2 (debug_changes_nothing_unless_aborted W ""
                                   0 0 (SampleFacts.world_snapshot_blind _ 0 0)
                                   bands234 200 200 true true None None
                                   empty_disk)) tt _
          in conj (proj1 H) (proj1 (proj2 H))).
  by vm_compute.
Defined.

(** One clear scene, one band, registration, and a trim that cannot
    write the snapshot. The collaborators do not put artifacts among the
    snapshots and do not look at them. With [debug] the snapshot trim,
    the fifth call, raises and ends the run before registration; without
    [debug] the run returns, the artifact registered and trimmed. The
    two runs leave [a2.tif] with different contents. *)
Lemma snapshot_failure_changes_working_artifacts :
  let r1 := SampleMore.run_in_place_only true in
  let r0 := SampleMore.run_in_place_only false in
  snapshot_blind SampleMore.world_in_place_only "" 0 0 /\
  trace r1
  = [ListImages 0 0 None None;
     GetCrops Clear ["2"%string] 0 0 300 300 "";
     Imread "a2.tif";
     MkdirP "no_registration";
     CropGeoreferenced "no_registration/a2.tif" "a2.tif" 0 0 200 200] /\
  result r1 = Raised (CollaboratorError "crop_georeferenced_image") /\
  result r0 = Returned tt /\
  files (final r1) !! "a2.tif"%string
  = Some (mkArtifact [1; 2; 3; 4; 5; 6] 300 300) /\
  files (final r0) !! "a2.tif"%string
  = Some (mkArtifact [5; 4; 3; 2] 200 200) /\
  ~ same_working_artifacts "" r1 r0.
Proof.
  intros r1 r0.
  split; [apply SampleFacts.world_in_place_only_snapshot_blind|].
  split; [by vm_compute|]. split; [by vm_compute|].
  split; [by vm_compute|].
  assert (files (final r1) !! "a2.tif"%string
          = Some (mkArtifact [1; 2; 3; 4; 5; 6] 300 300)) as H1
    by by vm_compute.
  assert (files (final r0) !! "a2.tif"%string
          = Some (mkArtifact [5; 4; 3; 2] 200 200)) as H0
    by by vm_compute.
  split; [done|]. split; [done|].
  intros H.
  specialize (H "a2.tif"%string
                (SampleFacts.outside_here "a2.tif" eq_refl)).
  rewrite H1, H0 in H. discriminate H.
Qed.

(** Only the blank scene is found: the time series is empty. *)
Lemma snapshot_dirs_on_empty_series_witness :
  let r := get_time_series (world [Blank]) 0 0 bands234 200 200 true true
             "" None None true empty_disk in
  result (collect (world [Blank]) 0 0 bands234 200 200 true "" None None
            empty_disk) = Returned [] /\
  In (MkdirP (join "" "no_registration")) (trace r) /\
  In (MkdirP (join "" "no_midway")) (trace r) /\
  Forall (fun c : Call => is_copy c = false) (trace r).
Proof.
  assert (result (collect (world [Blank]) 0 0 bands234 200 200 true ""
                    None None empty_disk) = Returned []) as Hc
    by by vm_compute.
  split; [exact Hc|].
  destruct (snapshot_dirs_on_empty_series (world [Blank]) 0 0 bands234
              200 200 true true "" None None empty_disk Hc)
    as (H1 & H2 & H3 & _).
  split; [by apply H1|]. split; [|exact H3].
  apply H2; [done|]. by intros _ d'.
Defined.

End Scenarios.


(** ** Collection: acquisitions, the filter at work *)

Section Collection.

Context {Coord Date Scene : Type}.
Variable C : @Collaborators Coord Date Scene.

Abbreviation Call := (@Call Coord Date Scene).
Abbreviation M := (@M Coord Date Scene).
Abbreviation Run := (@Run Coord Date Scene).

(** The calls of a sequence, however it ends. *)
Lemma trace_bind {A B} (m : M A) (k : A -> M B) d :
  trace (bind m k d)
  = trace (m d)
    ++ match result (m d) with
       | Returned a => trace (k a (final (m d)))
       | Raised _ => []
       end.
Proof.
  unfold bind. destruct (result (m d)); simpl; [done|].
  by rewrite app_nil_r.
Qed.

Lemma download_acquires_once img bands lon lat w h out_dir crops d :
  List.filter is_acquisition
    (trace (download C img bands lon lat w h out_dir crops d))
  = [GetCrops img bands lon lat w h out_dir].
Proof.
  unfold download. rewrite trace_bind. rewrite List.filter_app.
  cbn [invoke trace result final List.filter is_acquisition app].
  f_equal. destruct (get_crops_from_kayrros_api _ _ _ _ _ _ _ _ _).1
    as [l|e]; [|done].
  apply filter_none.
  assert (emits_only (fun c : Call => is_acquisition c = false)
            (match l with
             | [] => ret crops
             | _ :: _ =>
                 ok <- all_any l ;;
                 if ok : bool then ret (crops ++ [l])
                 else for_each l (fun x => invoke (Remove x) (Py.remove x)) ;;;
                      ret crops
             end)) as H; [|apply H].
  destruct l as [|x l]; [auto with emits|].
  apply emits_only_bind; [by apply all_any_emits|].
  intros [|]; auto 6 with emits.
Qed.

(** What one scene adds to the time series: nothing, or the non-empty
    list its acquisition returned. *)
Lemma download_adds img bands lon lat w h out_dir crops0 d crops :
  result (download C img bands lon lat w h out_dir crops0 d)
    = Returned crops ->
  crops = crops0 \/ exists l, l <> [] /\ crops = crops0 ++ [l].
Proof.
  unfold download. intros H.
  apply bind_inv in H as (l & Hl & H & _).
  destruct l as [|x l]; [left; by injection H|].
  apply bind_inv in H as (ok & _ & H & _).
  destruct ok.
  - right. exists (x :: l). split; [done|]. by injection H.
  - apply bind_inv in H as (? & _ & H & _). left. by injection H.
Qed.

Lemma download_all_acquisitions images bands lon lat w h out_dir crops0 d
    crops :
  result (download_all C images bands lon lat w h out_dir crops0 d)
    = Returned crops ->
  List.filter is_acquisition
    (trace (download_all C images bands lon lat w h out_dir crops0 d))
  = map (fun img => GetCrops img bands lon lat w h out_dir) images /\
  (length crops <= length crops0 + length images)%nat /\
  (Forall (fun l : list string => l <> []) crops0 ->
   Forall (fun l : list string => l <> []) crops).
Proof.
  revert crops0 d. induction images as [|img rest IH];
    intros crops0 d H; simpl in H.
  - injection H as <-. simpl. split; [done|]. split; [lia|done].
  - apply bind_inv in H as (crops1 & H1 & H & _ & Ht).
    cbn [download_all]. rewrite Ht, List.filter_app.
    rewrite download_acquires_once.
    destruct (IH _ _ H) as (-> & Hlen & Hne).
    split; [done|].
    apply download_adds in H1 as [->|(l & Hl & ->)].
    + split; [simpl; lia|done].
    + rewrite length_app in Hlen. simpl in *. split; [lia|].
      intros H0. apply Hne, Forall_app. split; [done|]. by constructor.
Qed.

(** X1. When collection returns, the acquisition collaborator has been
    called exactly once per discovered scene, in the order of discovery,
    each time with the requested bands, the position, the working size and
    the output directory; the time series has at most one crop set per
    scene, and none of its crop sets is empty. *)
Theorem one_acquisition_per_scene lat lon bands w h register out_dir
    sd ed d crops :
  result (collect C lat lon bands w h register out_dir sd ed d)
    = Returned crops ->
  exists images,
    (list_images C lat lon sd ed d).1 = Returned images /\
    List.filter is_acquisition
      (trace (collect C lat lon bands w h register out_dir sd ed d))
    = map (fun img => GetCrops img bands lon lat (working_size register w)
                        (working_size register h) out_dir) images /\
    (length crops <= length images)%nat /\
    Forall (fun l : list string => l <> []) crops.
Proof.
  unfold collect. intros H.
  apply bind_inv in H as (images & Hi & H & _ & ->).
  exists images. split; [done|].
  apply download_all_acquisitions in H as (Ht & Hlen & Hne).
  rewrite List.filter_app, Ht. split; [done|]. split; [simpl in Hlen; lia|].
  by apply Hne.
Qed.

Section Files.

Variable paths_of : Scene -> list string.
Variables (bands : list string) (lon lat : Coord) (w h : Z).
Variable out_dir : string.
Hypothesis HW : writes_scene_files C paths_of bands lon lat w h out_dir.

(** One scene, on a time series whose artifacts are valid files of other
    scenes: the step returns, the time series is still made of valid
    distinct files, and the only file that may be on the disk without
    having been there before is an artifact of the time series. *)
Lemma download_keeps_valid img crops0 d l d1 :
  get_crops_from_kayrros_api C img bands lon lat w h out_dir d
    = (Returned l, d1) ->
  all_nonzero d (concat crops0) -> NoDup (concat crops0) ->
  (forall x, x ∈ concat crops0 -> x ∉ paths_of img) ->
  exists crops1,
    let r := download C img bands lon lat w h out_dir crops0 d in
    result r = Returned crops1 /\
    all_nonzero (final r) (concat crops1) /\ NoDup (concat crops1) /\
    (forall x, x ∈ concat crops1 ->
       x ∈ concat crops0 \/ x ∈ paths_of img) /\
    (forall x, x ∈ concat crops0 -> x ∈ concat crops1) /\
    (forall p, is_Some (files (final r) !! p) ->
       is_Some (files d !! p) \/ p ∈ concat crops1).
Proof.
  intros Hacq Hval Hnd Hfar.
  destruct HW as [_ Hfiles].
  destruct (Hfiles _ _ _ _ Hacq) as (Hndl & Hl & Hframe).
  assert (forall x, x ∈ concat crops0 -> x ∉ l) as Hold.
  { intros x Hx Hxl. by apply (Hfar x Hx), Hl. }
  assert (all_nonzero d1 (concat crops0)) as Hval1.
  { intros x Hx. rewrite Hframe by by apply Hold. by apply Hval. }
  assert (invoke (GetCrops img bands lon lat w h out_dir : Call)
            (get_crops_from_kayrros_api C img bands lon lat w h out_dir) d
          = mkRun (Returned l) d1 [GetCrops img bands lon lat w h out_dir])
    as Hstep.
  { unfold invoke. by rewrite Hacq. }
  unfold download. cbv zeta.
  rewrite (bind_returned _ _ d l) by (by rewrite Hstep).
  rewrite Hstep. cbn [result final trace].
  destruct l as [|x0 l0].
  { exists crops0. cbn [ret result final]. repeat split; try done; auto.
    intros p Hp. left. rewrite <- Hframe; [done|apply not_elem_of_nil]. }
  set (l := x0 :: l0) in *.
  assert (forall x, x ∈ l -> is_Some (files d1 !! x)) as Hex
    by (intros x Hx; by apply Hl).
  destruct (@all_any_run Coord Date Scene l d1 Hex) as (Hr & Hf).
  rewrite (bind_returned _ _ d1 _ Hr), Hf. cbn [result final trace].
  destruct (passes d1 l) eqn:Hp.
  - exists (crops0 ++ [l]). cbn [ret result final].
    rewrite concat_app. simpl. rewrite app_nil_r.
    split; [done|]. split; [|split; [|split; [|split]]].
    + intros x [Hx|Hx]%elem_of_app; [by apply Hval1|].
      by apply passes_all_nonzero in Hp; apply Hp.
    + apply NoDup_app. split; [done|]. split; [|done]. apply Hold.
    + intros x [Hx|Hx]%elem_of_app; [by left|right; by apply Hl].
    + intros x Hx. apply elem_of_app. by left.
    + intros p Hp'. destruct (decide (p ∈ l)) as [Hin|Hout].
      * right. apply elem_of_app. by right.
      * left. by rewrite <- Hframe.
  - destruct (@remove_all_run Coord Date Scene l d1 Hndl Hex)
      as (Hr' & _ & Hf').
    exists crops0. rewrite (bind_returned _ _ d1 _ Hr').
    cbn [ret result final].
    split; [done|]. split; [|split; [done|split; [by left|split; [done|]]]].
    + intros x Hx. rewrite Hf'. rewrite decide_False by by apply Hold.
      by apply Hval1.
    + intros p Hp'. rewrite Hf' in Hp'. destruct (decide (p ∈ l)).
      * by destruct Hp'.
      * left. by rewrite <- Hframe.
Qed.

Lemma download_all_keeps_valid images crops0 d crops :
  NoDup images ->
  all_nonzero d (concat crops0) -> NoDup (concat crops0) ->
  (forall x img, x ∈ concat crops0 -> img ∈ images -> x ∉ paths_of img) ->
  let r := download_all C images bands lon lat w h out_dir crops0 d in
  result r = Returned crops ->
  all_nonzero (final r) (concat crops) /\ NoDup (concat crops) /\
  (forall x, x ∈ concat crops0 -> x ∈ concat crops) /\
  (forall p, is_Some (files (final r) !! p) ->
     is_Some (files d !! p) \/ p ∈ concat crops).
Proof.
  intros Hnd. revert crops0 d.
  induction Hnd as [|img rest Himg Hnd IH]; intros crops0 d Hval Hnd0 Hfar.
  - cbn. intros [= <-]. repeat split; auto.
  - cbv zeta. cbn [download_all]. intros H.
    pose proof H as H'.
    apply bind_inv in H' as (crops1 & H1 & H2 & Hfin & _).
    rewrite Hfin.
    assert (exists l, get_crops_from_kayrros_api C img bands lon lat w h
                        out_dir d
                      = (Returned l, (get_crops_from_kayrros_api C img bands
                                        lon lat w h out_dir d).2))
      as [l Hacq].
    { unfold download in H1. apply bind_inv in H1 as (l & Hl & _).
      exists l. cbn [invoke result] in Hl. rewrite <- Hl.
      apply surjective_pairing. }
    destruct (download_keeps_valid img crops0 d l _ Hacq Hval Hnd0)
      as (crops1' & Hr & Hval1 & Hnd1 & Hfrom & Hmono & Hleft).
    { intros x Hx. apply Hfar; [done|left]. }
    cbv zeta in Hr. rewrite H1 in Hr. injection Hr as <-.
    destruct (IH crops1 _ Hval1 Hnd1) as (Hv & Hn & Hm & Hl); [|exact H2|].
    { intros x img' Hx Himg'. destruct (Hfrom x Hx) as [Hx0|Hx0].
      - apply Hfar; [done|by right].
      - destruct HW as [Hapart _]. apply (Hapart img); [by intros ->|done]. }
    split; [done|]. split; [done|]. split; [by auto|].
    intros p Hp. destruct (Hl p Hp) as [Hp1|]; [|by right].
    destruct (Hleft p Hp1) as [|Hp0]; [by left|right; by apply Hm].
Qed.

Lemma download_all_returns images crops0 d :
  NoDup images ->
  (forall img d', exists l,
     (get_crops_from_kayrros_api C img bands lon lat w h out_dir d').1
       = Returned l) ->
  all_nonzero d (concat crops0) -> NoDup (concat crops0) ->
  (forall x img, x ∈ concat crops0 -> img ∈ images -> x ∉ paths_of img) ->
  exists crops,
    result (download_all C images bands lon lat w h out_dir crops0 d)
      = Returned crops.
Proof.
  intros Hnd Hret. revert crops0 d.
  induction Hnd as [|img rest Himg Hnd IH]; intros crops0 d Hval Hnd0 Hfar.
  - by exists crops0.
  - destruct (Hret img d) as [l Hl].
    assert (get_crops_from_kayrros_api C img bands lon lat w h out_dir d
            = (Returned l, (get_crops_from_kayrros_api C img bands
                              lon lat w h out_dir d).2)) as Hacq.
    { rewrite <- Hl. apply surjective_pairing. }
    destruct (download_keeps_valid img crops0 d l _ Hacq Hval Hnd0)
      as (crops1 & Hr & Hval1 & Hnd1 & Hfrom & _).
    { intros x Hx. apply Hfar; [done|left]. }
    cbv zeta in Hr. cbn [download_all].
    rewrite (bind_returned _ _ _ _ Hr). cbn [result].
    apply IH; [done..|].
    intros x img' Hx Himg'. destruct (Hfrom x Hx) as [Hx0|Hx0].
    + apply Hfar; [done|by right].
    + destruct HW as [Hapart _]. apply (Hapart img); [by intros ->|done].
Qed.

End Files.

(** X2. Acquisition writing, for each scene, distinct files of that scene
    and nothing else, and discovery returning distinct scenes: when
    collection returns, every artifact of the time series is a file that
    holds a non-zero sample, no file occurs twice in the time series, and
    every file on the disk is an artifact of the time series or was on
    the disk when discovery returned: a rejected scene leaves no new file
    behind. *)
Theorem collected_series_valid paths_of lat lon bands w h register out_dir
    sd ed d images d1 crops :
  writes_scene_files C paths_of bands lon lat (working_size register w)
    (working_size register h) out_dir ->
  list_images C lat lon sd ed d = (Returned images, d1) ->
  NoDup images ->
  let r := collect C lat lon bands w h register out_dir sd ed d in
  result r = Returned crops ->
  all_nonzero (final r) (concat crops) /\ NoDup (concat crops) /\
  (forall p, is_Some (files (final r) !! p) ->
     is_Some (files d1 !! p) \/ p ∈ concat crops).
Proof.
  intros HW Hl Hnd r H. subst r. unfold collect in *.
  assert (invoke (ListImages lat lon sd ed : Call)
            (list_images C lat lon sd ed) d
          = mkRun (Returned images) d1 [ListImages lat lon sd ed]) as Hstep.
  { unfold invoke. by rewrite Hl. }
  rewrite (bind_returned _ _ d images) in * by (by rewrite Hstep).
  rewrite Hstep in *. cbn [result final trace] in *.
  destruct (download_all_keeps_valid paths_of bands lon lat _ _ out_dir HW
              images [] d1 crops Hnd) as (Hv & Hn & _ & Hleft);
    try done.
  - intros x Hx. by apply elem_of_nil in Hx.
  - constructor.
  - intros x img Hx. by apply elem_of_nil in Hx.
Qed.

(** X3. Under the same interface, collection raises only what a
    collaborator raises: when discovery returns distinct scenes and every
    acquisition returns, collection returns; neither the reading nor the
    removal of files fails. *)
Theorem collection_returns paths_of lat lon bands w h register out_dir
    sd ed d images d1 :
  writes_scene_files C paths_of bands lon lat (working_size register w)
    (working_size register h) out_dir ->
  list_images C lat lon sd ed d = (Returned images, d1) ->
  NoDup images ->
  (forall img d', exists l,
     (get_crops_from_kayrros_api C img bands lon lat
        (working_size register w) (working_size register h) out_dir d').1
       = Returned l) ->
  exists crops,
    result (collect C lat lon bands w h register out_dir sd ed d)
      = Returned crops.
Proof.
  intros HW Hl Hnd Hret. unfold collect.
  assert (invoke (ListImages lat lon sd ed : Call)
            (list_images C lat lon sd ed) d
          = mkRun (Returned images) d1 [ListImages lat lon sd ed]) as Hstep.
  { unfold invoke. by rewrite Hl. }
  rewrite (bind_returned _ _ d images) by (by rewrite Hstep).
  rewrite Hstep. cbn [result final trace].
  apply (download_all_returns paths_of bands lon lat _ _ out_dir HW);
    try done.
  - intros x Hx. by apply elem_of_nil in Hx.
  - constructor.
  - intros x img Hx. by apply elem_of_nil in Hx.
Qed.

End Collection.

(** ** The filter on unusual lists *)

Section FilterEdges.

Context {Coord Date Scene : Type}.
Variable C : @Collaborators Coord Date Scene.

Abbreviation Call := (@Call Coord Date Scene).
Abbreviation M := (@M Coord Date Scene).
Abbreviation Run := (@Run Coord Date Scene).

Lemma imread_run x d a :
  files d !! x = Some a ->
  invoke (Imread x : Call) (Py.imread x) d
  = mkRun (Returned (raster a)) d [Imread x].
Proof. intros H. unfold invoke, Py.imread. by rewrite H. Qed.

(** X4. The test of a scene reads its artifacts in order and stops at the
    first one without a non-zero sample: it answers no, having read that
    artifact and those before it; what follows in the list is not read, be
    it there or not. *)
Theorem filter_stops_at_first_blank (l1 : list string) x l2 d a :
  all_nonzero d l1 ->
  files d !! x = Some a -> ~ has_nonzero_sample a ->
  let r : Run bool := all_any (l1 ++ x :: l2) d in
  result r = Returned false /\ final r = d /\
  trace r = map Imread (l1 ++ [x]).
Proof.
  intros Hl1 Hx Ha. induction l1 as [|y l1 IH]; cbv zeta.
  - cbn [app all_any]. rewrite (bind_returned _ _ d (raster a))
      by (by rewrite (imread_run _ _ _ Hx)).
    rewrite (imread_run _ _ _ Hx). cbn [result final trace].
    destruct (Py.any (raster a)) eqn:Hany.
    + by apply any_nonzero in Hany.
    + done.
  - destruct (Hl1 y) as (b & Hy & Hb); [by left|].
    cbn [app all_any]. rewrite (bind_returned _ _ d (raster b))
      by (by rewrite (imread_run _ _ _ Hy)).
    rewrite (imread_run _ _ _ Hy). cbn [result final trace].
    apply any_nonzero in Hb. rewrite Hb.
    destruct IH as (Hr & Hf & Ht).
    { intros z Hz. apply Hl1. by right. }
    split; [done|]. split; [done|]. cbn [map app]. by rewrite Ht.
Qed.

(** X5. Acquisition returns a list in which the path [x] comes back after
    a first part [l1] that holds it already, all files are there and one
    of them has no non-zero sample: the removal of the rejected scene
    raises [OSError] on [x], which it has removed before; the files of the
    first part are gone and the step does not return. *)
Theorem cleanup_fails_on_repeated_path img bands lon lat w h out_dir crops
    d l1 x l2 d1 :
  get_crops_from_kayrros_api C img bands lon lat w h out_dir d
    = (Returned (l1 ++ x :: l2), d1) ->
  NoDup l1 -> x ∈ l1 ->
  (forall y, y ∈ l1 ++ x :: l2 -> is_Some (files d1 !! y)) ->
  ~ all_nonzero d1 (l1 ++ x :: l2) ->
  let r := download C img bands lon lat w h out_dir crops d in
  result r = Raised (OSError x) /\
  (forall y, y ∈ l1 -> files (final r) !! y = None).
Proof.
  intros Hacq Hnd Hx Hex Hblank. cbv zeta. unfold download.
  assert (invoke (GetCrops img bands lon lat w h out_dir : Call)
            (get_crops_from_kayrros_api C img bands lon lat w h out_dir) d
          = mkRun (Returned (l1 ++ x :: l2)) d1
              [GetCrops img bands lon lat w h out_dir]) as Hstep.
  { unfold invoke. by rewrite Hacq. }
  rewrite (bind_returned _ _ d _) by (by rewrite Hstep).
  rewrite Hstep. cbn [result final trace].
  destruct (l1 ++ x :: l2) as [|x0 l0] eqn:El; [by destruct l1|].
  rewrite <- El in *.
  destruct (@all_any_run Coord Date Scene _ d1 Hex) as (Hr & Hf).
  rewrite (bind_returned _ _ d1 _ Hr), Hf. cbn [result final trace].
  destruct (passes d1 (l1 ++ x :: l2)) eqn:Hp.
  { exfalso. by apply Hblank, passes_all_nonzero. }
  destruct (@remove_all_run Coord Date Scene l1 d1 Hnd)
    as (Hr1 & _ & Hf1).
  { intros y Hy. apply Hex, elem_of_app. by left. }
  cbv zeta in Hr1, Hf1.
  set (removal := fun y : string => invoke (Remove y : Call) (Py.remove y))
    in *.
  assert (result (removal x (final (for_each l1 removal d1)))
          = Raised (OSError x) /\
          final (removal x (final (for_each l1 removal d1)))
          = final (for_each l1 removal d1)) as [Hrx Hfx].
  { unfold removal at 1 3. unfold invoke, Py.remove. cbn [result final].
    rewrite Hf1, decide_True by done. done. }
  assert (result (for_each (l1 ++ x :: l2) removal d1) = Raised (OSError x)
          /\ final (for_each (l1 ++ x :: l2) removal d1)
             = final (for_each l1 removal d1)) as [Hrl Hfl].
  { rewrite for_each_app. rewrite (bind_returned _ _ d1 _ Hr1).
    cbn [result final for_each].
    rewrite (bind_raised _ _ _ _ Hrx). cbn [result final]. by rewrite Hfx. }
  rewrite (bind_raised _ _ _ _ Hrl). cbn [result final].
  split; [done|]. intros y Hy. rewrite Hfl, Hf1. by rewrite decide_True.
Qed.

End FilterEdges.

(** ** Band groups as the columns of the time series *)

Section Groups.

Lemma band_group_cons (crop : list string) rest i :
  band_group (crop :: rest) i = option_list (crop !! i) ++ band_group rest i.
Proof.
  cbn [band_group]. case_bool_decide as Hlt.
  - by destruct (crop !! i).
  - by rewrite lookup_ge_None_2 by lia.
Qed.

Lemma column_cells (crop : list string) k n :
  concat (map (fun i => option_list (crop !! i)) (seq k n))
  = take n (drop k crop).
Proof.
  revert k. induction n as [|n IH]; intros k; [done|].
  cbn [seq map concat]. rewrite IH.
  destruct (crop !! k) as [x|] eqn:Hk.
  - by rewrite (drop_S _ _ _ Hk).
  - apply lookup_ge_None_1 in Hk. rewrite !drop_ge by lia.
    by rewrite !take_nil.
Qed.

Lemma concat_map_app {A} (f g : A -> list string) l :
  concat (map (fun i => f i ++ g i) l)
  ≡ₚ concat (map f l) ++ concat (map g l).
Proof.
  induction l as [|a l IH]; [done|]. cbn [map concat]. rewrite IH.
  rewrite <- !app_assoc. apply Permutation_app_head.
  rewrite !app_assoc. apply Permutation_app_tail, Permutation_app_comm.
Qed.

(** X6. Over the band indices below [n], the groups handed to
    equalization hold, each once, the artifacts that the crop sets have at
    their first [n] positions. So when no crop set is longer than the list
    of bands, every artifact of the time series is in exactly one group;
    an artifact at a position beyond the bands is in none. *)
Theorem band_groups_partition (crops : list (list string)) n :
  concat (map (band_group crops) (seq 0 n)) ≡ₚ concat (map (take n) crops)
  /\ (Forall (fun crop : list string => (length crop <= n)%nat) crops ->
      concat (map (band_group crops) (seq 0 n)) ≡ₚ concat crops).
Proof.
  assert (concat (map (band_group crops) (seq 0 n))
          ≡ₚ concat (map (take n) crops)) as Hgen.
  { induction crops as [|crop crops IH].
    - cbn. induction (seq 0 n) as [|i l IHl]; [done|]. by cbn.
    - rewrite (map_ext (band_group (crop :: crops))
                 (fun i => option_list (crop !! i) ++ band_group crops i))
        by (intros i; apply band_group_cons).
      rewrite concat_map_app, column_cells, IH. by rewrite drop_0. }
  split; [done|]. intros Hlen. rewrite Hgen.
  assert (map (take n) crops = crops) as ->; [|reflexivity].
  clear Hgen. induction Hlen as [|crop crops Hc _ IH]; [done|].
  cbn [map]. rewrite IH. f_equal. by apply take_ge.
Qed.

(** X7. A group never mixes positions: the members of the group of band
    index [i] are the artifacts that some crop set has at position [i],
    and nothing else. *)
Theorem band_group_members (crops : list (list string)) i x :
  x ∈ band_group crops i <->
  exists crop, crop ∈ crops /\ crop !! i = Some x.
Proof.
  induction crops as [|crop crops IH].
  - split; [by intros ?%elem_of_nil|]. by intros (? & ?%elem_of_nil & _).
  - rewrite band_group_cons, elem_of_app, IH. split.
    + intros [Hx|(c & Hc & Hi)].
      * exists crop. split; [left|].
        destruct (crop !! i); simpl in Hx; [|by apply elem_of_nil in Hx].
        by apply list_elem_of_singleton in Hx as ->.
      * exists c. split; [by right|done].
    + intros (c & [->|Hc]%elem_of_cons & Hi).
      * left. rewrite Hi. simpl. by left.
      * right. by exists c.
Qed.

End Groups.

(** ** Runs that a collaborator aborts *)

Section Aborted.

Context {Coord Date Scene : Type}.
Variable C : @Collaborators Coord Date Scene.

Abbreviation Call := (@Call Coord Date Scene).
Abbreviation M := (@M Coord Date Scene).

(** A sequence stays within the calls planned for it when its first part
    does and, once that part has returned having made all its calls, the
    second part does. *)
Lemma bind_within {A B} (m : M A) (k : A -> M B) d (plan1 plan2 : list Call) :
  trace (m d) `prefix_of` plan1 ->
  (forall a, result (m d) = Returned a ->
     trace (m d) = plan1 /\ trace (k a (final (m d))) `prefix_of` plan2) ->
  trace (bind m k d) `prefix_of` plan1 ++ plan2.
Proof.
  intros [t1 H1] H2. rewrite trace_bind.
  destruct (result (m d)) as [a|e].
  - destruct (H2 a eq_refl) as [-> [t2 ->]]. exists t2.
    by rewrite <- app_assoc.
  - exists (t1 ++ plan2). rewrite H1, app_nil_r. by rewrite <- app_assoc.
Qed.

Lemma for_each_invoke_within {A} (ev : A -> Call)
    (f : A -> Storage -> outcome unit * Storage) l d :
  trace (for_each l (fun x => invoke (ev x) (f x)) d) `prefix_of` map ev l.
Proof.
  revert d. induction l as [|x l IH]; intros d; [by exists []|].
  cbn [for_each map].
  apply (bind_within _ _ d [ev x] (map ev l)); [by exists []|].
  intros a _. split; [done|apply IH].
Qed.

Lemma for_each_artifact_invoke_within (ev : string -> Call)
    (f : string -> Storage -> outcome unit * Storage) crops d :
  trace (for_each_artifact crops (fun b => invoke (ev b) (f b)) d)
    `prefix_of` map ev (concat crops).
Proof.
  rewrite for_each_artifact_concat. apply for_each_invoke_within.
Qed.

Lemma ret_within {A} (a : A) d : trace ((ret a : M A) d) `prefix_of` [].
Proof. by exists []. Qed.

Lemma snapshot_before_registration_within lon lat w h out_dir crops d :
  trace (snapshot_before_registration C lon lat w h out_dir crops d)
    `prefix_of` MkdirP (join out_dir "no_registration")
                :: snapshot_trims lon lat (w - 100) (h - 100) out_dir crops.
Proof.
  unfold snapshot_before_registration.
  apply (bind_within _ _ d [MkdirP (join out_dir "no_registration")]);
    [by exists []|].
  intros a _. split; [done|].
  apply (for_each_artifact_invoke_within
           (fun b => CropGeoreferenced
                       (join (join out_dir "no_registration") (basename b))
                       b lon lat (w - 100) (h - 100))).
Qed.

Lemma register_images_within lon lat w h out_dir debug crops d :
  trace (register_images C lon lat w h out_dir debug crops d)
    `prefix_of`
    registration_calls lon lat (w - 100) (h - 100) out_dir debug crops.
Proof.
  unfold register_images, registration_calls. apply bind_within.
  - destruct debug; [apply snapshot_before_registration_within|].
    apply ret_within.
  - intros a Ha. split.
    + destruct debug; [|done].
      unfold snapshot_before_registration in *.
      apply bind_inv in Ha as (? & _ & Ha & _ & ->).
      cbn [invoke trace app]. f_equal.
      eapply for_each_artifact_invoke_trace, Ha.
    + apply (bind_within _ _ _ [RegistrationMain crops crops true]);
        [by exists []|].
      intros ? _. split; [done|].
      apply (for_each_artifact_invoke_within
               (fun b => CropGeoreferenced b b lon lat (w - 100) (h - 100))).
Qed.

Lemma equalize_images_within bands out_dir debug crops d :
  trace (equalize_images C bands out_dir debug crops d)
    `prefix_of` equalization_calls bands out_dir debug crops.
Proof.
  unfold equalize_images, equalization_calls. apply bind_within.
  - destruct debug; [|apply ret_within].
    unfold snapshot_before_equalization.
    apply (bind_within _ _ d [MkdirP (join out_dir "no_midway")]);
      [by exists []|].
    intros a _. split; [done|].
    apply (for_each_artifact_invoke_within
             (fun b => ShutilCopy b (join out_dir "no_midway"))).
  - intros a Ha. split.
    + destruct debug; [|done].
      unfold snapshot_before_equalization in *.
      apply bind_inv in Ha as (? & _ & Ha & _ & ->).
      cbn [invoke trace app]. f_equal.
      eapply for_each_artifact_invoke_trace, Ha.
    + apply (for_each_invoke_within
               (fun i => MidwayMain (band_group crops i) out_dir)).
Qed.

(** X8. Every run, also one that a collaborator aborts, makes its calls
    in the order of the code and stops at the exception. When collection
    raises, the run raises the same exception and has done nothing more.
    When collection returns the time series [crops], the calls made after
    it are a beginning of the calls of the requested stages on [crops]
    (snapshot, registration, trims, then snapshot, equalizations), and all
    of them when the run returns. *)
Theorem calls_follow_plan lat lon bands w h register equalize out_dir
    sd ed debug d :
  let r := get_time_series C lat lon bands w h register equalize out_dir
             sd ed debug d in
  let c := collect C lat lon bands w h register out_dir sd ed d in
  (forall e, result c = Raised e ->
     result r = Raised e /\ final r = final c /\ trace r = trace c) /\
  (forall crops, result c = Returned crops ->
     trace r `prefix_of`
       trace c ++ stage_calls lon lat bands w h register equalize out_dir
                    debug crops /\
     (forall u, result r = Returned u ->
        trace r = trace c ++ stage_calls lon lat bands w h register equalize
                               out_dir debug crops)).
Proof.
  cbv zeta. split.
  - intros e He. unfold get_time_series. by rewrite (bind_raised _ _ _ _ He).
  - intros crops Hc. split.
    + unfold get_time_series. apply bind_within; [reflexivity|].
      intros crops' Hc'. rewrite Hc in Hc'. injection Hc' as <-.
      split; [done|]. unfold stage_calls. apply bind_within.
      * destruct register; [|apply ret_within].
        assert (registration_calls lon lat w h out_dir debug crops
                = registration_calls lon lat (working_size true w - 100)
                    (working_size true h - 100) out_dir debug crops)
          as -> by (unfold working_size; f_equal; lia).
        apply register_images_within.
      * intros a Ha. split.
        -- destruct register; [|done].
           erewrite register_images_trace by apply Ha.
           unfold working_size. f_equal; lia.
        -- destruct equalize; [|apply ret_within].
           apply equalize_images_within.
    + intros u Hu.
      destruct (get_time_series_trace _ _ _ _ _ _ _ _ _ _ _ _ _ _ Hu)
        as (crops' & Hc' & ->).
      rewrite Hc in Hc'. by injection Hc' as <-.
Qed.

(** X9. A registration that raises ends the run: the run raises the same
    exception, its last call is the registration call, and the storage is
    as registration left it. So nothing is trimmed and nothing is
    equalized: the artifacts stay at the working size. *)
Theorem failed_registration_ends_the_run lat lon bands w h equalize out_dir
    sd ed (debug : bool) d crops e :
  let c := collect C lat lon bands w h true out_dir sd ed d in
  let s := (if debug
            then snapshot_before_registration C lon lat (w + 100) (h + 100)
                   out_dir crops
            else (ret tt : M unit)) (final c) in
  result c = Returned crops ->
  result s = Returned tt ->
  (registration_main C crops crops true (final s)).1 = Raised e ->
  let r := get_time_series C lat lon bands w h true equalize out_dir
             sd ed debug d in
  result r = Raised e /\
  final r = (registration_main C crops crops true (final s)).2 /\
  trace r = trace c ++ trace s ++ [RegistrationMain crops crops true].
Proof.
  cbv zeta. intros Hc Hs He. unfold get_time_series.
  rewrite (bind_returned _ _ _ _ Hc). cbn [result final trace].
  unfold register_images, working_size.
  set (reg := invoke (RegistrationMain crops crops true : Call)
                (registration_main C crops crops true)).
  assert (forall k : unit -> M unit,
            bind reg k (final ((if debug
               then snapshot_before_registration C lon lat (w + 100)
                      (h + 100) out_dir crops
               else (ret tt : M unit))
              (final (collect C lat lon bands w h true out_dir sd ed d))))
            = mkRun (Raised e)
                (registration_main C crops crops true
                   (final ((if debug
                      then snapshot_before_registration C lon lat (w + 100)
                             (h + 100) out_dir crops
                      else (ret tt : M unit))
                     (final (collect C lat lon bands w h true out_dir
                               sd ed d))))).2
                [RegistrationMain crops crops true]) as Hreg.
  { intros k. by rewrite (bind_raised _ _ _ e) by apply He. }
  rewrite (bind_raised _ _ _ e).
  - cbn [result final trace]. rewrite (bind_returned _ _ _ _ Hs).
    rewrite Hreg. cbn [result final trace]. done.
  - rewrite (bind_returned _ _ _ _ Hs). by rewrite Hreg.
Qed.

End Aborted.

(** ** The size of the artifacts after registration *)

Section TargetSize.

Context {Coord Date Scene : Type}.
Variable C : @Collaborators Coord Date Scene.
Variables lon lat : Coord.

Abbreviation Call := (@Call Coord Date Scene).
Abbreviation M := (@M Coord Date Scene).

Hypothesis Htrim : trims_to_size C lon lat.

(** Trimming in place the files of a list, which are there: all end at
    the size asked for, also one that is listed twice, and no other file
    changes. *)
Lemma trim_all_run (w h : Z) (l : list string) d :
  (forall b, b ∈ l -> is_Some (files d !! b)) ->
  let r := for_each l (fun b =>
             invoke (CropGeoreferenced b b lon lat w h : Call)
               (crop_georeferenced_image C b b lon lat w h)) d in
  result r = Returned tt /\
  (forall b, b ∈ l -> has_footprint (final r) w h b) /\
  (forall p, p ∉ l -> files (final r) !! p = files d !! p).
Proof.
  revert d. induction l as [|x l IH]; intros d Hex.
  - cbn. split; [done|]. split; [|done]. by intros b ?%elem_of_nil.
  - destruct (Htrim x w h d) as (Hret & Hfoot & Hframe); [apply Hex; left|].
    cbv zeta in *. cbn [for_each].
    rewrite (bind_returned _ _ d tt) by done. cbn [invoke result final].
    set (d' := (crop_georeferenced_image C x x lon lat w h d).2) in *.
    destruct (IH d') as (Hr & Hf & Hfr).
    { intros b Hb. destruct (decide (b = x)) as [->|Hne].
      - destruct Hfoot as (a & -> & _). by eexists.
      - rewrite Hframe by done. apply Hex. by right. }
    split; [done|]. split.
    + intros b [->|Hb]%elem_of_cons; [|by apply Hf].
      destruct (decide (x ∈ l)) as [Hin|Hout]; [by apply Hf|].
      destruct Hfoot as (a & Ha & Hw & Hh). exists a.
      by rewrite Hfr, Ha.
    + intros p Hp. apply not_elem_of_cons in Hp as [Hne Hp].
      by rewrite Hfr, Hframe.
Qed.

(** X10. Registration keeping the artifacts on the disk and trimming
    meeting its interface: on a time series whose artifacts are files,
    the registration stage for the working size returns and each artifact
    then covers exactly the target size, the margin of 100 taken off,
    whatever it covered before. *)
Theorem registered_artifacts_have_target_size (w h : Z) out_dir crops d :
  registration_keeps_files C ->
  (forall b, b ∈ concat crops -> is_Some (files d !! b)) ->
  let r := register_images C lon lat (w + 100) (h + 100) out_dir false
             crops d in
  result r = Returned tt /\
  (forall b, b ∈ concat crops -> has_footprint (final r) w h b).
Proof.
  intros Hreg Hex. cbv zeta. unfold register_images.
  rewrite bind_ret_l.
  destruct (Hreg crops d Hex) as (Hret & Hkept). cbv zeta in *.
  rewrite (bind_returned _ _ d tt) by done. cbn [invoke result final].
  rewrite for_each_artifact_concat.
  replace (w + 100 - 100) with w by lia.
  replace (h + 100 - 100) with h by lia.
  destruct (trim_all_run w h (concat crops) _ Hkept) as (Hr & Hf & _).
  by split.
Qed.

End TargetSize.

(** ** Runs from the command line *)

Section FromCommandLine.

Context {Coord Date Scene : Type}.
Variable C : @Collaborators Coord Date Scene.

Abbreviation Call := (@Call Coord Date Scene).

Example all_bands_are_1_to_11 :
  all_bands
  = ["1"; "2"; "3"; "4"; "5"; "6"; "7"; "8"; "9"; "10"; "11"]%string.
Proof. reflexivity. Qed.

(** X11. A run started from the command line: every call carries what
    the command line gave or the defaults (the eleven bands 1 to 11, a
    size of 5000, the current directory); width and height are always the
    same number, so the crops are square; acquisition asks for the size
    plus 100 under [-r]; registration and trims occur only under [-r],
    equalization only under [-m], directories and copies only under
    [-d]. This holds however the run ends. *)
Theorem command_line_wiring (cl : @CommandLine Coord Date) d :
  Forall (from_command_line cl) (trace (main C cl d)) /\
  (given_band cl = None ->
   args_band (parse_args cl)
   = ["1"; "2"; "3"; "4"; "5"; "6"; "7"; "8"; "9"; "10"; "11"]%string).
Proof.
  split; [|intros H; cbn [parse_args args_band]; by rewrite H]. revert d.
  change (emits_only (from_command_line cl) (main C cl)).
  unfold main, get_time_series. cbn [parse_args args_lat args_lon args_band
    args_size args_register args_midway args_outdir args_start_date
    args_end_date args_debug].
  apply emits_only_bind.
  { apply collect_emits; simpl; unfold working_size; try done.
    all: intros; by destruct (given_register cl). }
  intros crops. apply emits_only_bind.
  - destruct (given_register cl) eqn:Hr; auto with emits.
    apply register_images_emits; simpl; rewrite ?Hr; try done;
      intros; unfold working_size; repeat split; try done; lia.
  - intros _. destruct (given_midway cl) eqn:Hm; auto with emits.
    apply equalize_images_emits; simpl; by rewrite ?Hm.
Qed.

End FromCommandLine.

(** ** Artifacts and snapshots do not share paths *)

Module OutDirFacts.

Import PathFacts.

Lemma append_empty a b : a +:+ b = EmptyString -> b = EmptyString.
Proof. destruct a; rewrite ?append_nil, ?append_cons; [done|discriminate]. Qed.

Lemma endswith_sep_app a b :
  b <> EmptyString -> endswith_sep (a +:+ b) = endswith_sep b.
Proof.
  intros Hb. induction a as [|c a IH]; rewrite ?append_nil, ?append_cons;
    [done|].
  cbn [endswith_sep]. destruct (a +:+ b) as [|c' s] eqn:E; [|done].
  by apply append_empty in E.
Qed.

Lemma no_sep_endswith x : has_sep x = false -> endswith_sep x = false.
Proof.
  induction x as [|c x IH]; [done|]. cbn [has_sep endswith_sep].
  intros [Hc Hx]%orb_false_elim. destruct x; [done|]. by apply IH.
Qed.

(** A file put into the directory [dir] of [out_dir]. *)
Lemma join_subdir out_dir dir y :
  has_sep dir = false -> dir <> EmptyString -> has_sep y = false ->
  join (join out_dir dir) y
  = (if bool_decide (out_dir = EmptyString) || endswith_sep out_dir
     then out_dir else out_dir +:+ "/") +:+ (dir +:+ String "/" y).
Proof.
  intros Hd Hne Hy. rewrite (join_no_sep out_dir dir Hd).
  set (P := if bool_decide (out_dir = EmptyString) || endswith_sep out_dir
            then out_dir else out_dir +:+ "/").
  rewrite (join_no_sep _ y Hy).
  rewrite endswith_sep_app, (no_sep_endswith _ Hd), orb_false_r by done.
  rewrite bool_decide_eq_false_2.
  - by rewrite !append_assoc.
  - by intros ?%append_empty.
Qed.

End OutDirFacts.

Section OutDir.

Import PathFacts OutDirFacts.

(** X12. A file that lies directly in the output directory, under a name
    without separator, is not a path to which a snapshot is written:
    the snapshots of [no_registration] and [no_midway] never overwrite
    an artifact that acquisition put directly in the output directory. *)
Theorem artifact_in_out_dir_is_no_snapshot out_dir name :
  has_sep name = false -> ~ in_snapshot out_dir (join out_dir name).
Proof.
  intros Hn [b Hb].
  assert (forall dir, has_sep dir = false -> dir <> EmptyString ->
            join out_dir name <> join (join out_dir dir) (basename b))
    as Hdiff.
  { intros dir Hd Hne Heq.
    rewrite (join_subdir out_dir dir _ Hd Hne (basename_no_sep b)) in Heq.
    rewrite (join_no_sep out_dir name Hn) in Heq.
    apply append_inj_r in Heq. rewrite Heq, has_sep_app in Hn.
    cbn in Hn. by rewrite orb_true_r in Hn. }
  destruct Hb as [Hb|Hb]; by apply Hdiff in Hb.
Qed.

End OutDir.

(** ** Two artifacts of one file name *)

Section SnapshotNames.

Context {Coord Date Scene : Type}.

Abbreviation Call := (@Call Coord Date Scene).
Abbreviation M := (@M Coord Date Scene).

Import PathFacts.

(** Copying files that are there into a directory none of them is in:
    the loop returns and a path that is not a copy keeps its content. *)
Lemma copy_loop_frame nm (l : list string) d :
  nm ∈ dirs d ->
  (forall b, b ∈ l -> is_Some (files d !! b)) ->
  (forall b b', b ∈ l -> b' ∈ l -> join nm (basename b) <> b') ->
  let r := for_each l (fun b => invoke (ShutilCopy b nm : Call)
                                  (Py.copy b nm)) d in
  result r = Returned tt /\ dirs (final r) = dirs d /\
  (forall p, (forall b, b ∈ l -> p <> join nm (basename b)) ->
     files (final r) !! p = files d !! p).
Proof.
  revert d. induction l as [|b l IH]; intros d Hnm Hex Hout.
  - by cbn.
  - destruct (Hex b) as [a Ha]; [by left|].
    pose proof (@copy_run Coord Date Scene b nm d a Hnm Ha
                  (Hout b b ltac:(left) ltac:(left))) as Hstep.
    cbv zeta. cbn [for_each].
    rewrite (bind_returned _ _ d tt) by (by rewrite Hstep).
    rewrite Hstep. cbn [result final trace].
    set (d' := mkStorage (<[join nm (basename b) := a]> (files d)) (dirs d)).
    destruct (IH d') as (Hres & Hdirs & Hrest); try done.
    { intros b' Hb'. simpl.
      rewrite lookup_insert_ne by (apply Hout; [left|by right]).
      apply Hex. by right. }
    { intros b1 b2 H1 H2. apply Hout; by right. }
    split; [done|]. split; [done|].
    intros p Hp. rewrite Hrest by (intros b' Hb'; apply Hp; by right).
    simpl. apply lookup_insert_ne. intros Heq. by apply (Hp b ltac:(left)).
Qed.

(** X13. The snapshot before equalization goes by file name: when several
    artifacts of the time series have the name of [b], the directory
    [no_midway] holds, under that name, the content of the last of them;
    the copies of the earlier ones are overwritten. (The artifacts are
    files, none of them in [no_midway].) *)
Theorem snapshot_holds_last_of_a_name out_dir crops l1 b l2 d :
  concat crops = l1 ++ b :: l2 ->
  (forall y, y ∈ concat crops -> is_Some (files d !! y)) ->
  (forall y y', y ∈ concat crops -> y' ∈ concat crops ->
     join (join out_dir "no_midway") (basename y) <> y') ->
  (forall y, y ∈ l2 -> basename y <> basename b) ->
  let r := snapshot_before_equalization (Coord:=Coord) (Date:=Date)
             (Scene:=Scene) out_dir crops d in
  result r = Returned tt /\
  files (final r) !! join (join out_dir "no_midway") (basename b)
  = files d !! b.
Proof.
  intros Hsplit Hex Hout Hlast. cbv zeta.
  unfold snapshot_before_equalization.
  rewrite (bind_returned _ _ d tt) by done.
  cbn [invoke result final trace fst snd mkdir_p].
  rewrite for_each_artifact_concat, Hsplit in *.
  set (nm := join out_dir "no_midway") in *.
  set (d0 := mkStorage (files d) ({[nm]} ∪ dirs d)).
  set (copy := fun y : string => invoke (ShutilCopy y nm : Call)
                                   (Py.copy y nm)).
  assert (nm ∈ dirs d0) as Hnm by (simpl; set_solver).
  destruct (copy_loop_frame nm l1 d0 Hnm) as (Hr1 & Hd1 & Hf1).
  { intros y Hy. apply Hex, elem_of_app. by left. }
  { intros y y' Hy Hy'. apply Hout; apply elem_of_app; by left. }
  cbv zeta in Hr1, Hd1, Hf1. fold copy in Hr1, Hd1, Hf1.
  set (d1 := final (for_each l1 copy d0)) in *.
  assert (forall y, y ∈ l1 ++ b :: l2 -> files d1 !! y = files d !! y)
    as Hsrc.
  { intros y Hy. rewrite Hf1; [done|].
    intros y' Hy' ->. eapply Hout; [|exact Hy|done].
    apply elem_of_app. by left. }
  assert (b ∈ l1 ++ b :: l2) as Hb by (apply elem_of_app; right; left).
  destruct (Hex b Hb) as [a Ha].
  assert (copy b d1
          = mkRun (Returned tt)
              (mkStorage (<[join nm (basename b) := a]> (files d1)) (dirs d1))
              [ShutilCopy b nm]) as Hstep.
  { apply copy_run; [by rewrite Hd1|by rewrite Hsrc|by apply Hout]. }
  set (d2 := mkStorage (<[join nm (basename b) := a]> (files d1)) (dirs d1))
    in *.
  destruct (copy_loop_frame nm l2 d2) as (Hr2 & _ & Hf2).
  { simpl. by rewrite Hd1. }
  { intros y Hy. simpl.
    assert (y ∈ l1 ++ b :: l2) as Hy' by (apply elem_of_app; right; by right).
    rewrite lookup_insert_ne by by apply Hout.
    rewrite Hsrc by done. by apply Hex. }
  { intros y y' Hy Hy'. apply Hout; apply elem_of_app; right; by right. }
  cbv zeta in Hr2, Hf2. fold copy in Hr2, Hf2.
  rewrite for_each_app. rewrite (bind_returned _ _ d0 _ Hr1).
  cbn [result final for_each]. fold d1.
  rewrite (bind_returned _ _ d1 tt) by (by rewrite Hstep).
  rewrite Hstep. cbn [result final]. fold d2.
  split; [done|]. rewrite Hf2.
  - simpl. by rewrite lookup_insert_eq.
  - intros y Hy Heq. apply (Hlast y Hy). symmetry.
    by apply join_inj in Heq; [|apply basename_no_sep..].
Qed.

End SnapshotNames.

(** ** The sample world meets the interfaces *)

Module SampleInterfaces.

Import Sample SampleMore.

Lemma write_all_in paths a (m : gmap string Artifact) x :
  x ∈ paths -> write_all paths a m !! x = Some a.
Proof.
  induction paths as [|p paths IH]; [by intros ?%elem_of_nil|].
  intros Hx. cbn [write_all foldr]. destruct (decide (p = x)) as [->|Hne].
  - apply lookup_insert_eq.
  - rewrite lookup_insert_ne by done. apply IH.
    by apply elem_of_cons in Hx as [->|Hx].
Qed.

Lemma write_all_out paths a (m : gmap string Artifact) x :
  x ∉ paths -> write_all paths a m !! x = m !! x.
Proof.
  induction paths as [|p paths IH]; [done|].
  intros [Hne Hx]%not_elem_of_cons. cbn [write_all foldr].
  rewrite lookup_insert_ne by done. by apply IH.
Qed.

Lemma acquired_paths img :
  map (join "") (firstn (length bands234) (names img)) = paths_of img.
Proof. by destruct img. Qed.

Lemma paths_of_NoDup img : NoDup (paths_of img).
Proof. destruct img; apply (bool_decide_eq_true_1 _); by vm_compute. Qed.

Lemma paths_of_apart img img' x :
  img <> img' -> x ∈ paths_of img -> x ∉ paths_of img'.
Proof.
  intros Hne Hx Hx'.
  assert (Forall (fun y => y ∉ paths_of img') (paths_of img)) as H.
  { destruct img, img'; try done;
      apply (bool_decide_eq_true_1 _); by vm_compute. }
  rewrite Forall_forall in H. by apply (H x Hx).
Qed.

Lemma world_writes_scene_files cat lon lat w h :
  writes_scene_files (world cat) paths_of bands234 lon lat w h "".
Proof.
  split; [apply paths_of_apart|].
  intros img d l d' H. cbn [world get_crops_from_kayrros_api] in H.
  unfold acquire in H. rewrite acquired_paths in H. injection H as <- <-.
  split; [apply paths_of_NoDup|]. split.
  - intros x Hx. split; [done|]. cbn [files].
    rewrite write_all_in by done. by eexists.
  - intros p Hp. cbn [files]. by apply write_all_out.
Qed.

Lemma world_trims_to_size cat lon lat :
  trims_to_size (world cat) lon lat.
Proof.
  intros b w h d [a Ha]. cbn [world crop_georeferenced_image].
  unfold trim. rewrite Ha. cbn [fst snd].
  split; [done|]. split.
  - exists (window a w h). cbn [files]. by rewrite lookup_insert_eq.
  - intros p Hp. cbn [files]. by apply lookup_insert_ne.
Qed.

Lemma alter_all_is_Some f l (m : gmap string Artifact) p :
  is_Some (m !! p) -> is_Some (alter_all f l m !! p).
Proof.
  intros H. induction l as [|x l IH]; [done|]. cbn [alter_all foldr].
  rewrite lookup_alter. case_decide; [subst|done].
  by apply fmap_is_Some.
Qed.

Lemma world_registration_keeps_files cat :
  registration_keeps_files (world cat).
Proof.
  intros crops d Hex. cbn [world registration_main fst snd].
  split; [done|]. intros b Hb. cbn [files].
  by apply alter_all_is_Some, Hex.
Qed.

End SampleInterfaces.

(** ** More runs of the sample world *)

Module MoreScenarios.

Import Sample SampleMore SampleInterfaces.

Abbreviation W := (world catalog).
Abbreviation Call := (@Call Z Z scene).
Abbreviation Run := (@Run Z Z scene).

Lemma one_acquisition_per_scene_witness :
  exists images,
    (list_images W 0 0 None None empty_disk).1 = Returned images /\
    List.filter is_acquisition
      (trace (collect W 0 0 bands234 200 200 false "" None None empty_disk))
    = map (fun img => GetCrops img bands234 0 0 (working_size false 200)
                        (working_size false 200) "") images /\
    (length three_series <= length images)%nat /\
    Forall (fun l : list string => l <> []) three_series.
Proof.
  apply (one_acquisition_per_scene W 0 0 bands234 200 200 false ""
           None None empty_disk three_series).
  by vm_compute.
Defined.

Lemma catalog_NoDup : NoDup catalog.
Proof. apply (bool_decide_eq_true_1 _). by vm_compute. Qed.

Lemma collected_series_valid_witness :
  let r := collect W 0 0 bands234 200 200 false "" None None empty_disk in
  all_nonzero (final r) (concat three_series) /\
  NoDup (concat three_series) /\
  (forall p, is_Some (files (final r) !! p) ->
     is_Some (files empty_disk !! p) \/ p ∈ concat three_series).
Proof.
  apply (collected_series_valid W paths_of 0 0 bands234 200 200 false ""
           None None empty_disk catalog empty_disk three_series).
  - apply world_writes_scene_files.
  - reflexivity.
  - apply catalog_NoDup.
  - by vm_compute.
Defined.

Lemma collection_returns_witness :
  exists crops,
    result (collect W 0 0 bands234 200 200 true "" None None empty_disk)
      = Returned crops.
Proof.
  apply (collection_returns W paths_of 0 0 bands234 200 200 true ""
           None None empty_disk catalog empty_disk).
  - apply world_writes_scene_files.
  - reflexivity.
  - apply catalog_NoDup.
  - intros img d'. by eexists.
Defined.

Lemma filter_stops_at_first_blank_witness :
  let r : Run bool :=
    all_any (["a2.tif"%string] ++ "b2.tif"%string :: ["nowhere.tif"%string])
      clear_and_blank in
  result r = Returned false /\ final r = clear_and_blank /\
  trace r = map Imread (["a2.tif"%string] ++ ["b2.tif"%string]).
Proof.
  apply (filter_stops_at_first_blank (Coord:=Z) (Date:=Z) (Scene:=scene)
           ["a2.tif"%string] "b2.tif" ["nowhere.tif"%string] clear_and_blank
           (mkArtifact [0; 0; 0; 0; 0; 0] 300 300)).
  - apply passes_all_nonzero. by vm_compute.
  - by vm_compute.
  - intros H%any_nonzero. by vm_compute in H.
Defined.

Lemma cleanup_fails_on_repeated_path_witness :
  let r := download world_repeating Blank bands234 0 0 300 300 "" []
             empty_disk in
  result r = Raised (OSError "b2.tif") /\
  (forall y, y ∈ blank_files -> files (final r) !! y = None).
Proof.
  apply (cleanup_fails_on_repeated_path world_repeating Blank bands234 0 0
           300 300 "" [] empty_disk blank_files "b2.tif" [] blank_acquired).
  - reflexivity.
  - apply (bool_decide_eq_true_1 _). by vm_compute.
  - by left.
  - intros y Hy. cbn in Hy.
    repeat (apply elem_of_cons in Hy as [->|Hy]);
      [by vm_compute; eexists..|by apply elem_of_nil in Hy].
  - intros H%passes_all_nonzero. by vm_compute in H.
Defined.

Lemma failed_registration_ends_the_run_witness :
  let c := collect world_failing 0 0 bands234 200 200 true "" None None
             empty_disk in
  let r := get_time_series world_failing 0 0 bands234 200 200 true true ""
             None None false empty_disk in
  result c = Returned three_series /\
  result r = Raised (CollaboratorError "registration") /\
  final r = final c /\
  trace r = trace c ++ [] ++ [RegistrationMain three_series three_series
                                true].
Proof.
  cbv zeta. split; [by vm_compute|].
  apply (failed_registration_ends_the_run world_failing 0 0 bands234 200 200
           true "" None None false empty_disk three_series
           (CollaboratorError "registration")).
  - by vm_compute.
  - reflexivity.
  - reflexivity.
Defined.

Lemma registered_artifacts_have_target_size_witness :
  let r := register_images W 0 0 (200 + 100) (200 + 100) "" false
             three_series three_collected_wide in
  result r = Returned tt /\
  (forall b, b ∈ concat three_series -> has_footprint (final r) 200 200 b).
Proof.
  apply (registered_artifacts_have_target_size W 0 0
           (world_trims_to_size _ 0 0) 200 200 "" three_series
           three_collected_wide).
  - apply world_registration_keeps_files.
  - intros b Hb. cbn in Hb.
    repeat (apply elem_of_cons in Hb as [->|Hb]);
      [by vm_compute; eexists..|by apply elem_of_nil in Hb].
Defined.

Lemma artifact_in_out_dir_is_no_snapshot_witness :
  has_sep "a2.tif" = false /\ ~ in_snapshot "out" "out/a2.tif".
Proof.
  split; [reflexivity|].
  apply (artifact_in_out_dir_is_no_snapshot "out" "a2.tif"). reflexivity.
Defined.

Lemma snapshot_holds_last_of_a_name_witness :
  let r := snapshot_before_equalization (Coord:=Z) (Date:=Z) (Scene:=scene)
             "" series_of_a_name two_of_a_name in
  result r = Returned tt /\
  files (final r) !! "no_midway/a.tif" = files two_of_a_name !! "y/a.tif".
Proof.
  apply (snapshot_holds_last_of_a_name (Coord:=Z) (Date:=Z) (Scene:=scene)
           "" series_of_a_name ["x/a.tif"%string] "y/a.tif" []
           two_of_a_name).
  - reflexivity.
  - intros y Hy. cbn in Hy.
    repeat (apply elem_of_cons in Hy as [->|Hy]);
      [by vm_compute; eexists..|by apply elem_of_nil in Hy].
  - intros y y' Hy Hy' Heq. cbn in Hy, Hy'.
    repeat (apply elem_of_cons in Hy as [->|Hy]);
      try (by apply elem_of_nil in Hy);
      repeat (apply elem_of_cons in Hy' as [->|Hy']);
      try (by apply elem_of_nil in Hy');
      by vm_compute in Heq.
  - intros y Hy. by apply elem_of_nil in Hy.
Defined.

End MoreScenarios.
